(** * whatsapp_bridge: the entity resolver and its registry indexes

    A shallow embedding of [src/resolver.js], [src/haContext.js] and
    [src/constants.js] (the multi-signal scoring revision), and the properties
    of the resolver that the specification states.

    Conventions of the embedding.
    - A JavaScript string is a [string]: a sequence of code units below 256.
      [toLowerCase], [trim] and the regular-expression classes [\s], [\d],
      [.] and [[^a-z0-9]] are written out on that range.
    - A JavaScript number is an exact rational ([Q]); [Math.log2], which the
      language leaves implementation-approximated, is a parameter of the index
      builder.
    - [null] and [undefined] are [None]; a value is "truthy" as in JavaScript
      (the empty string is not).
    - The ambient module state (registry snapshot, alias table, per-user
      memory, host collation) is gathered in the record [Env] and passed
      explicitly. *)

From Stdlib Require Import ZArith QArith Qminmax Qround Strings.String Strings.Ascii
  Numbers.DecimalString List Bool Lia Lqa.
From stdpp Require Import gmap strings list sorting.

Local Open Scope string_scope.

(* ------------------------------------------------------------------------- *)
(** ** Characters and the String.prototype methods the resolver uses          *)
(* ------------------------------------------------------------------------- *)

Module Js.

Definition code (c : ascii) : N := N_of_ascii c.

Definition between (lo hi : N) (c : ascii) : bool :=
  ((lo <=? code c) && (code c <=? hi))%N.

(** [\s] and the characters [trim] strips: TAB, LF, VT, FF, CR, SP, NBSP. *)
Definition isWhiteSpace (c : ascii) : bool :=
  between 9 13 c || (code c =? 32)%N || (code c =? 160)%N.

(** Characters that [.] refuses (no [s] flag): LF and CR. *)
Definition isLineTerminator (c : ascii) : bool :=
  (code c =? 10)%N || (code c =? 13)%N.

(** [\d] *)
Definition isDigit (c : ascii) : bool := between 48 57 c.

(** [[a-z0-9]] *)
Definition isLowerAlnum (c : ascii) : bool := between 97 122 c || isDigit c.

Definition toLowerChar (c : ascii) : ascii :=
  if between 65 90 c || (between 192 222 c && negb (code c =? 215)%N)
  then ascii_of_N (code c + 32)
  else c.

Fixpoint toLowerCase (s : string) : string :=
  match s with
  | EmptyString => EmptyString
  | String c r => String (toLowerChar c) (toLowerCase r)
  end.

Definition isEmpty (s : string) : bool :=
  match s with EmptyString => true | String _ _ => false end.

Fixpoint trimStart (s : string) : string :=
  match s with
  | EmptyString => EmptyString
  | String c r => if isWhiteSpace c then trimStart r else s
  end.

Fixpoint trimEnd (s : string) : string :=
  match s with
  | EmptyString => EmptyString
  | String c r =>
      let r' := trimEnd r in
      if isWhiteSpace c && isEmpty r' then EmptyString else String c r'
  end.

Definition trim (s : string) : string := trimEnd (trimStart s).

(** [s.startsWith(p)] *)
Definition startsWith (s p : string) : bool := String.prefix p s.

(** [s.substring(n)] *)
Fixpoint substringFrom (n : nat) (s : string) : string :=
  match n, s with
  | O, _ => s
  | S _, EmptyString => EmptyString
  | S n', String _ r => substringFrom n' r
  end.

(** [hay.includes(needle)] *)
Fixpoint includes (hay needle : string) : bool :=
  String.prefix needle hay ||
  match hay with
  | EmptyString => false
  | String _ r => includes r needle
  end.

(** [l.join(sep)] *)
Definition join (sep : string) (l : list string) : string := String.concat sep l.

(** [l.includes(x)] on an array of strings, [set.has(x)] on a Set of strings. *)
Definition has (l : list string) (x : string) : bool := bool_decide (x ∈ l).

(** JavaScript truthiness of a string-or-null value. *)
Definition truthy (v : option string) : bool :=
  match v with
  | Some s => negb (isEmpty s)
  | None => false
  end.

(** [s.split(re)] for a regular expression that matches exactly the
    non-empty runs of separator characters: the pieces between the runs,
    with the empty pieces at both ends kept. *)
Fixpoint splitRuns (sep : ascii -> bool) (cur : string) (inRun : bool) (s : string)
  : list string :=
  match s with
  | EmptyString => [String.rev cur]
  | String c r =>
      if sep c then
        if inRun then splitRuns sep EmptyString true r
        else String.rev cur :: splitRuns sep EmptyString true r
      else splitRuns sep (String c cur) false r
  end.

(** [s.replace(/_/g, " ")] *)
Fixpoint underscoresToSpaces (s : string) : string :=
  match s with
  | EmptyString => EmptyString
  | String c r =>
      String (if (code c =? 95)%N then " "%char else c) (underscoresToSpaces r)
  end.

(** [s.replace(/\s+/g, " ")] *)
Fixpoint collapseWhiteSpace (inRun : bool) (s : string) : string :=
  match s with
  | EmptyString => EmptyString
  | String c r =>
      if isWhiteSpace c then
        if inRun then collapseWhiteSpace true r
        else String " "%char (collapseWhiteSpace true r)
      else String c (collapseWhiteSpace false r)
  end.

(** [s.split(".").slice(1).join(".")]: what follows the first dot. *)
Fixpoint afterFirstDot (s : string) : string :=
  match s with
  | EmptyString => EmptyString
  | String c r => if (code c =? 46)%N then r else afterFirstDot r
  end.

(** The longest prefix of decimal digits. *)
Fixpoint leadingDigits (s : string) : string :=
  match s with
  | EmptyString => EmptyString
  | String c r => if isDigit c then String c (leadingDigits r) else EmptyString
  end.

Fixpoint digitsValue (acc : Z) (s : string) : Z :=
  match s with
  | EmptyString => acc
  | String c r => digitsValue (10 * acc + Z.of_N (code c - 48)) r
  end.

(** [parseInt(s, 10)]: leading white space, an optional sign, then the
    longest run of digits; [None] is [NaN]. *)
Definition parseInt (s : string) : option Z :=
  let s1 := trimStart s in
  let '(negative, s2) :=
    match s1 with
    | String c r =>
        if (code c =? 45)%N then (true, r)
        else if (code c =? 43)%N then (false, r)
        else (false, s1)
    | EmptyString => (false, s1)
    end in
  let digits := leadingDigits s2 in
  if isEmpty digits then None
  else Some (if negative then - digitsValue 0 digits else digitsValue 0 digits)%Z.

(** The number of leading [\s] characters. *)
Fixpoint wsLen (s : string) : nat :=
  match s with
  | EmptyString => O
  | String c r => if isWhiteSpace c then S (wsLen r) else O
  end.

(** [arr.slice(0, n)] for a non-negative integer [n]. *)
Definition slice0 {A} (n : nat) (l : list A) : list A := firstn n l.

(** [arr.sort(cmp)]: the stable sort of an array by a comparator, written
    as insertion from the right; [cmp a b] is the sign of the JavaScript
    comparator and [Gt] asks for [b] before [a]. *)
Fixpoint insertBy {A} (cmp : A -> A -> comparison) (x : A) (l : list A) : list A :=
  match l with
  | [] => [x]
  | y :: r =>
      match cmp x y with
      | Gt => y :: insertBy cmp x r
      | _ => x :: l
      end
  end.

Definition sort {A} (cmp : A -> A -> comparison) (l : list A) : list A :=
  foldr (insertBy cmp) [] l.

End Js.

(* ------------------------------------------------------------------------- *)
(** ** constants.js                                                           *)
(* ------------------------------------------------------------------------- *)

Definition SHORT_TOKEN_WHITELIST : list string :=
  ["ac"; "tv"; "ir"; "fan"; "led"; "pir"].

Definition STOP_WORDS : list string :=
  [ "the"; "and"; "for"; "are"; "but"; "not"; "you"; "all"; "can"; "her";
    "was"; "one"; "our"; "out"; "has"; "get"; "set"; "its"; "how"; "did";
    "let"; "say"; "she"; "too"; "use"; "way"; "who"; "may"; "any"; "new";
    "now"; "old"; "see"; "also"; "back"; "been"; "call"; "come"; "each";
    "find"; "from"; "give"; "have"; "here"; "just"; "know"; "like"; "look";
    "make"; "many"; "more"; "most"; "much"; "must"; "name"; "only"; "over";
    "show"; "some"; "take"; "tell"; "than"; "that"; "them"; "then"; "they";
    "this"; "time"; "turn"; "very"; "want"; "well"; "went"; "what"; "when";
    "will"; "with"; "would"; "about"; "after"; "could"; "every"; "first";
    "found"; "great"; "where"; "which"; "their"; "there"; "these"; "thing";
    "think"; "those"; "being"; "other"; "should"; "please"; "switch" ].

(** [tokenizeForMatch]: lowercase, split on runs of characters outside
    [[a-z0-9]], keep a piece when it is non-empty and has at least three
    characters or is whitelisted. *)
Definition tokenizeForMatch (text : string) : list string :=
  List.filter
    (fun token =>
       negb (Js.isEmpty token) &&
       ((3 <=? String.length token)%nat || Js.has SHORT_TOKEN_WHITELIST token))
    (Js.splitRuns (fun c => negb (Js.isLowerAlnum c)) EmptyString false
       (Js.toLowerCase text)).

(* ------------------------------------------------------------------------- *)
(** ** The data model                                                         *)
(* ------------------------------------------------------------------------- *)

(** An entry of [haContext.entities] or [haContext.searchIndex]. The opaque
    [attributes] bag, which the resolver never reads, is left out; a missing
    [area] is [None]; a missing [normalized] reads as the empty string, as in
    [entity.normalized || ""]. *)
Record Entity := {
  entity_id : string;
  domain : string;
  name : string;
  area : option string;
  state : string;
  normalized : string;
  supportsBrightness : bool;
}.

(** [{ ...entity, score }] *)
Record Candidate := {
  entity : Entity;
  score : Q;
}.

(** The registry snapshot [haContext]. *)
Record HaContext := {
  entities : list Entity;
  searchIndex : list Entity;
  entityMap : gmap string Entity;
  tokenIdf : gmap string Q;
}.

(** The state the resolver reads but does not own. [aliases] is the table
    that [loadAliases()] returns during the call. *)
Record Env := {
  haContext : HaContext;
  aliases : gmap string string;
  getLastEntityId : string -> option string;
  localeCompare : string -> string -> comparison;
}.

(** The module state of the alias loader: [aliasCache] and [aliasLastLoaded]. *)
Record AliasCache := {
  aliasCache : option (gmap string string);
  aliasLastLoaded : Z;
}.

Definition ALIAS_RELOAD_MS : Z := 60000.

(** [new Map(Object.entries(parsed).map(([k, v]) => [k.toLowerCase().trim(), v]))];
    of two entries with the same key the later one stays. *)
Definition aliasMap (parsed : list (string * string)) : gmap string string :=
  foldl (fun m kv => <[Js.trim (Js.toLowerCase (fst kv)) := snd kv]> m) ∅ parsed.

(** [loadAliases]. [now] is [Date.now()]; [file] is the parsed alias
    document, [None] when reading or parsing it throws. The result is the
    table returned and the module state left behind. *)
Definition loadAliases (now : Z) (file : option (list (string * string)))
    (st : AliasCache) : gmap string string * AliasCache :=
  let reload :=
    match file with
    | Some parsed =>
        (aliasMap parsed,
         {| aliasCache := Some (aliasMap parsed); aliasLastLoaded := now |})
    | None =>
        match aliasCache st with
        | Some table => (table, st)
        | None => (∅, {| aliasCache := Some ∅; aliasLastLoaded := aliasLastLoaded st |})
        end
    end in
  match aliasCache st with
  | Some table =>
      if (now - aliasLastLoaded st <? ALIAS_RELOAD_MS)%Z then (table, st) else reload
  | None => reload
  end.

(** The [options] argument of [selectEntityId]; an absent field is [None]. *)
Record SelectOptions := {
  preferredDomains : list string;
  limit : option nat;
  minScore : option Q;
}.

(** [getEntityById]: [haContext.entityMap.get(entityId) || null]. *)
Definition getEntityById (env : Env) (entityId : string) : option Entity :=
  entityMap (haContext env) !! entityId.

(** [resolveAlias] *)
Definition resolveAlias (env : Env) (text : string) : option string :=
  let normalized := Js.trim (Js.toLowerCase text) in
  if Js.isEmpty normalized then None
  else
    match aliases env !! normalized with
    | Some v => if Js.isEmpty v then None else Some v
    | None => None
    end.

(* ------------------------------------------------------------------------- *)
(** ** Multi-signal entity scorer                                             *)
(* ------------------------------------------------------------------------- *)

(** The mutable locals of the token loop of [scoreEntity]. *)
Record ScoreLoop := {
  loopScore : Q;
  consecutiveNameMatches : nat;
  maxConsecutive : nat;
  nameMatchCount : nat;
}.

(** [tokenIdf?.get(token) || 1] *)
Definition idfOf (tokenIdf : gmap string Q) (token : string) : Q :=
  match tokenIdf !! token with
  | Some w => if Qeq_bool w 0 then 1%Q else w
  | None => 1%Q
  end.

(** One iteration of [for (const token of tokens)]: signals 3, 4 and 5. *)
Definition scoreToken (nameTokens idTokens areaTokens : list string)
    (tokenIdf : gmap string Q) (st : ScoreLoop) (token : string) : ScoreLoop :=
  let idf := idfOf tokenIdf token in
  let inName := Js.has nameTokens token in
  let inId := Js.has idTokens token in
  let inArea := Js.has areaTokens token in
  let s := (if inArea then loopScore st + 5 * idf else loopScore st)%Q in
  if inName then
    {| loopScore := (s + 3 * idf)%Q;
       consecutiveNameMatches := S (consecutiveNameMatches st);
       maxConsecutive := Nat.max (maxConsecutive st) (S (consecutiveNameMatches st));
       nameMatchCount := S (nameMatchCount st) |}
  else
    {| loopScore := (if inId then s + 1 * idf else s)%Q;
       consecutiveNameMatches := O;
       maxConsecutive := maxConsecutive st;
       nameMatchCount := nameMatchCount st |}.

Definition natQ (n : nat) : Q := inject_Z (Z.of_nat n).

(** [scoreEntity] up to and including signal 7; the result carries the
    locals that signal 8 reads: the score so far, [nameTokens.length] and
    [nameMatchCount]. *)
Definition scoreSignals1to7 (e : Entity) (tokens : list string)
    (preferred : list string) (tokenIdf : gmap string Q) : Q * nat * nat :=
  let friendlyName := Js.toLowerCase (name e) in
  let entityIdSuffix := Js.underscoresToSpaces (Js.afterFirstDot (entity_id e)) in
  let areaLower := Js.toLowerCase (default "" (area e)) in
  let queryJoined := Js.join " " tokens in
  let s0 := 0%Q in
  let s1 := (if String.eqb friendlyName queryJoined then s0 + 100 else s0)%Q in
  let s2 :=
    (if String.eqb entityIdSuffix (Js.collapseWhiteSpace false queryJoined)
     then s1 + 80 else s1)%Q in
  let nameTokens := tokenizeForMatch friendlyName in
  let idTokens := tokenizeForMatch (entity_id e) in
  let areaTokens := tokenizeForMatch areaLower in
  let st :=
    fold_left (scoreToken nameTokens idTokens areaTokens tokenIdf) tokens
      {| loopScore := s2; consecutiveNameMatches := O;
         maxConsecutive := O; nameMatchCount := O |} in
  let s6 :=
    (if (2 <=? maxConsecutive st)%nat
     then loopScore st + natQ (maxConsecutive st) * 2 else loopScore st)%Q in
  let s7 := (if Js.has preferred (domain e) then s6 + 2 else s6)%Q in
  (s7, length nameTokens, nameMatchCount st).

(** Signal 8, the completeness bonus:
    [if (nameTokens.length > 0 && nameMatchCount > 0)
       score += (nameMatchCount / nameTokens.length) * 5]. *)
Definition addCompleteness (s : Q) (nameTokensLength matched : nat) : Q :=
  if (0 <? nameTokensLength)%nat && (0 <? matched)%nat
  then (s + (natQ matched / natQ nameTokensLength) * 5)%Q else s.

(** [scoreEntity(entity, tokens, { preferredDomains, tokenIdf })] *)
Definition scoreEntity (e : Entity) (tokens : list string)
    (preferred : list string) (tokenIdf : gmap string Q) : Q :=
  let '(s7, nameTokensLength, matched) :=
    scoreSignals1to7 e tokens preferred tokenIdf in
  addCompleteness s7 nameTokensLength matched.

(* ------------------------------------------------------------------------- *)
(** ** Candidate search                                                       *)
(* ------------------------------------------------------------------------- *)

(** [(a, b) => b.score - a.score || a.name.localeCompare(b.name)] *)
Definition compareCandidates (env : Env) (a b : Candidate) : comparison :=
  match (score b ?= score a)%Q with
  | Eq => localeCompare env (name (entity a)) (name (entity b))
  | c => c
  end.

(** The de-duplication loop:
    [for (const item of scored) {
       if (seen.has(item.entity_id)) continue;
       unique.push(item); seen.add(item.entity_id);
       if (unique.length >= limit) break; }].
    [pushed] is [unique.length]; the result is what is pushed from here on. *)
Fixpoint uniqueLoop (lim : nat) (seen : gset string) (pushed : nat)
    (items : list Candidate) : list Candidate :=
  match items with
  | [] => []
  | item :: rest =>
      if bool_decide (entity_id (entity item) ∈ seen) then
        uniqueLoop lim seen pushed rest
      else
        item ::
          (if (lim <=? S pushed)%nat then []
           else uniqueLoop lim ({[entity_id (entity item)]} ∪ seen) (S pushed) rest)
  end.

(** The tokens of a query: [tokenizeForMatch(text).filter(t => !STOP_WORDS.has(t))]. *)
Definition queryTokens (text : string) : list string :=
  List.filter (fun t => negb (Js.has STOP_WORDS t)) (tokenizeForMatch text).

(** [x > 0] *)
Definition isPositive (x : Q) : bool := negb (Qle_bool x 0).

(** The array [scored]: every index entry with its score, the non-positive
    scores dropped, sorted. *)
Definition scoredCandidates (env : Env) (tokens preferred : list string)
  : list Candidate :=
  Js.sort (compareCandidates env)
    (List.filter (fun entry => isPositive (score entry))
       (map (fun e => {| entity := e;
                         score := scoreEntity e tokens preferred
                                    (tokenIdf (haContext env)) |})
          (searchIndex (haContext env)))).

(** The single-token fallback. *)
Definition fallbackCandidates (env : Env) (token : string) (lim : nat)
  : list Candidate :=
  map (fun e => {| entity := e; score := (1 # 2)%Q |})
    (Js.slice0 lim
       (List.filter (fun e => Js.includes (entity_id e) token)
          (searchIndex (haContext env)))).

(** [findEntityCandidates(text, limit, { preferredDomains })]; [lim] is a
    non-negative integer. *)
Definition findEntityCandidates (env : Env) (text : string) (lim : nat)
    (preferred : list string) : list Candidate :=
  if Js.isEmpty text || (length (searchIndex (haContext env)) =? 0)%nat then []
  else
    let tokens := queryTokens text in
    match tokens with
    | [] => []
    | token0 :: more =>
        let scored := scoredCandidates env tokens preferred in
        let unique := uniqueLoop lim ∅ O scored in
        match unique, more with
        | [], [] => fallbackCandidates env token0 lim
        | _, _ => unique
        end
    end.

(* ------------------------------------------------------------------------- *)
(** ** Entity selection                                                       *)
(* ------------------------------------------------------------------------- *)

(** [options.limit || 5] *)
Definition limitOrDefault (o : option nat) : nat :=
  match o with
  | Some (S n) => S n
  | _ => 5%nat
  end.

(** [options.minScore || 1] *)
Definition minScoreOrDefault (o : option Q) : Q :=
  match o with
  | Some q => if Qeq_bool q 0 then 1%Q else q
  | None => 1%Q
  end.

(** [selectEntityId(text, options)] *)
Definition selectEntityId (env : Env) (text : string) (options : SelectOptions)
  : option string :=
  match resolveAlias env text with
  | Some alias => Some alias
  | None =>
      match findEntityCandidates env text (limitOrDefault (limit options))
              (preferredDomains options) with
      | best :: _ =>
          if Qle_bool (minScoreOrDefault (minScore options)) (score best)
          then Some (entity_id (entity best))
          else None
      | [] => None
      end
  end.

(* ------------------------------------------------------------------------- *)
(** ** Conjunction splitter                                                   *)
(* ------------------------------------------------------------------------- *)

(** The separator expression of [splitConjunctionTargets], the
    case-insensitive alternation of [\s*,\s*(?:and\s+)?], [\s+and\s+] and
    [\s*&\s*], matched at the start of a string. Each function gives the
    length of the match. Every [\s*] and [\s+] is followed by a character
    that is not white space, or ends its alternative, so the greedy
    quantifiers never give anything back. *)
Module Separator.

Definition isChar (lower upper : N) (c : ascii) : bool :=
  (Js.code c =? lower)%N || (Js.code c =? upper)%N.

(** [and\s+], case-insensitive *)
Definition andSpaces (s : string) : option nat :=
  match s with
  | String a (String n (String d r)) =>
      if isChar 97 65 a && isChar 110 78 n && isChar 100 68 d
         && (1 <=? Js.wsLen r)%nat
      then Some (3 + Js.wsLen r)%nat else None
  | _ => None
  end.

(** [\s*,\s*(?:and\s+)?] *)
Definition commaAlternative (s : string) : option nat :=
  let n1 := Js.wsLen s in
  match Js.substringFrom n1 s with
  | String c r =>
      if (Js.code c =? 44)%N then
        let n2 := Js.wsLen r in
        match andSpaces (Js.substringFrom n2 r) with
        | Some n3 => Some (n1 + 1 + n2 + n3)%nat
        | None => Some (n1 + 1 + n2)%nat
        end
      else None
  | EmptyString => None
  end.

(** [\s+and\s+] *)
Definition andAlternative (s : string) : option nat :=
  let n1 := Js.wsLen s in
  if (1 <=? n1)%nat then
    match andSpaces (Js.substringFrom n1 s) with
    | Some n2 => Some (n1 + n2)%nat
    | None => None
    end
  else None.

(** [\s*&\s*] *)
Definition ampersandAlternative (s : string) : option nat :=
  let n1 := Js.wsLen s in
  match Js.substringFrom n1 s with
  | String c r =>
      if (Js.code c =? 38)%N then Some (n1 + 1 + Js.wsLen r)%nat else None
  | EmptyString => None
  end.

(** The alternatives in their order. *)
Definition matchAt (s : string) : option nat :=
  match commaAlternative s with
  | Some n => Some n
  | None =>
      match andAlternative s with
      | Some n => Some n
      | None => ampersandAlternative s
      end
  end.

(** [text.split(separator)]: scan from the left; at the first position
    where the separator matches, close the current piece and resume after
    the match. [skip] counts the characters of a match still to pass,
    [cur] is the current piece, reversed. *)
Fixpoint split (skip : nat) (cur : string) (s : string) : list string :=
  match s with
  | EmptyString => [String.rev cur]
  | String c r =>
      match skip with
      | S k => split k cur r
      | O =>
          match matchAt s with
          | Some n => String.rev cur :: split (pred n) EmptyString r
          | None => split O (String c cur) r
          end
      end
  end.

End Separator.

(** [splitConjunctionTargets] *)
Definition splitConjunctionTargets (text : string) : list string :=
  List.filter (fun s => negb (Js.isEmpty s))
    (map Js.trim (Separator.split O EmptyString text)).

(* ------------------------------------------------------------------------- *)
(** ** Direct on/off commands                                                 *)
(* ------------------------------------------------------------------------- *)

Record DirectPattern := {
  prefix : string;
  service : string;
}.

Definition directPatterns : list DirectPattern :=
  [ {| prefix := "turn on "; service := "turn_on" |};
    {| prefix := "turn off "; service := "turn_off" |};
    {| prefix := "switch on "; service := "turn_on" |};
    {| prefix := "switch off "; service := "turn_off" |} ].

Record DirectAction := {
  directService : string;
  directEntityId : string;
  directName : string;
}.

Record DirectIntent := {
  directActions : list DirectAction;
  directMessage : string;
}.

Definition directOptions : SelectOptions :=
  {| preferredDomains := ["light"; "switch"; "fan"; "cover"];
     limit := Some 5%nat; minScore := None |}.

(** The action pushed for an entity:
    [{ service: `${entity.domain}.${pattern.service}`, entity_id, name }]. *)
Definition directActionOn (p : DirectPattern) (e : Entity) : DirectAction :=
  {| directService := domain e +:+ "." +:+ service p;
     directEntityId := entity_id e;
     directName := name e |}.

(** The body of [for (const segment of segments)]: the action pushed for a
    segment, or [None] when the iteration ends in [continue]. *)
Definition directAction (env : Env) (p : DirectPattern) (segment : string)
  : option DirectAction :=
  match selectEntityId env segment directOptions with
  | Some entityId =>
      if Js.isEmpty entityId then None
      else
        match getEntityById env entityId with
        | Some e => Some (directActionOn p e)
        | None => None
        end
  | None => None
  end.

(** The segments of the target that follows the prefix of [p]. *)
Definition directSegments (p : DirectPattern) (trimmed : string) : list string :=
  splitConjunctionTargets
    (Js.trim (Js.substringFrom (String.length (prefix p)) trimmed)).

(** [for (const pattern of directPatterns)] *)
Fixpoint directLoop (env : Env) (trimmed normalizedText : string)
    (patterns : list DirectPattern) : option DirectIntent :=
  match patterns with
  | [] => None
  | p :: rest =>
      if negb (Js.startsWith normalizedText (prefix p)) then
        directLoop env trimmed normalizedText rest
      else
        let segments := directSegments p trimmed in
        let actions := omap (directAction env p) segments in
        if (length actions =? 0)%nat then
          directLoop env trimmed normalizedText rest
        else if (length actions <? length segments)%nat then None
        else
          let verb :=
            if String.eqb (service p) "turn_on" then "turned on" else "turned off" in
          let names := Js.join ", " (map directName actions) in
          Some {| directActions := actions;
                  directMessage := names +:+ " " +:+ verb +:+ "." |}
  end.

(** [detectDirectAliasCommand(text, sender)]; [sender] is not read. *)
Definition detectDirectAliasCommand (env : Env) (text : string)
  : option DirectIntent :=
  let trimmed := Js.trim text in
  let normalizedText := Js.toLowerCase trimmed in
  directLoop env trimmed normalizedText directPatterns.

(* ------------------------------------------------------------------------- *)
(** ** Brightness commands                                                    *)
(* ------------------------------------------------------------------------- *)

(** The three expressions of [detectBrightnessCommand]. They share the part
    after the verb, [\s+(.+?)\s+to\s+(\d{1,3})(?:\s*%|\s*percent)?$]; a match
    gives the two capture groups. *)
Module Brightness.

Inductive Pattern :=
| SetTurnSwitch     (* ^(?:set|turn|switch) *)
| SetBrightnessOf   (* ^(?:set\s+brightness\s+of) *)
| DimBrighten.      (* ^(?:dim|brighten) *)

Definition stripPrefix (p s : string) : option string :=
  if Js.startsWith s p then Some (Js.substringFrom (String.length p) s) else None.

(** [\s+] before a literal: all the white space, at least one. *)
Definition spaces (s : string) : option string :=
  if (1 <=? Js.wsLen s)%nat then Some (Js.substringFrom (Js.wsLen s) s) else None.

(** [(?:\s*%|\s*percent)?$] *)
Definition unitThenEnd (s : string) : bool :=
  let r := Js.substringFrom (Js.wsLen s) s in
  Js.isEmpty s || String.eqb r "%" || String.eqb r "percent".

(** [\s+to\s+(\d{1,3})(?:\s*%|\s*percent)?$]: the digits captured. *)
Definition tail (s : string) : option string :=
  match spaces s with
  | Some s1 =>
      match stripPrefix "to" s1 with
      | Some s2 =>
          match spaces s2 with
          | Some s3 =>
              let digits := Js.leadingDigits s3 in
              let n := String.length digits in
              if (1 <=? n)%nat && (n <=? 3)%nat
                 && unitThenEnd (Js.substringFrom n s3)
              then Some digits else None
          | None => None
          end
      | None => None
      end
  | None => None
  end.

(** [(.+?)] followed by the tail: the shortest non-empty run of characters
    accepted by [.] after which the tail matches. [cur] is the run so far,
    reversed. *)
Fixpoint lazyTarget (cur : string) (s : string) : option (string * string) :=
  match s with
  | EmptyString => None
  | String c r =>
      if Js.isLineTerminator c then None
      else
        match tail r with
        | Some digits => Some (String.rev (String c cur), digits)
        | None => lazyTarget (String c cur) r
        end
  end.

(** [\s+(.+?)...]: the greedy [\s+] first takes all [n] white-space
    characters and gives them back one at a time. *)
Fixpoint afterVerb (n : nat) (s : string) : option (string * string) :=
  match n with
  | O => None
  | S n' =>
      match lazyTarget EmptyString (Js.substringFrom n s) with
      | Some m => Some m
      | None => afterVerb n' s
      end
  end.

(** A list of literal alternatives, tried in order. *)
Fixpoint verbs (alternatives : list string) (s : string) : option (string * string) :=
  match alternatives with
  | [] => None
  | v :: rest =>
      match stripPrefix v s with
      | Some r =>
          match afterVerb (Js.wsLen r) r with
          | Some m => Some m
          | None => verbs rest s
          end
      | None => verbs rest s
      end
  end.

(** [lowered.match(pattern)]: [(match[1], match[2])]. *)
Definition matchPattern (p : Pattern) (lowered : string) : option (string * string) :=
  match p with
  | SetTurnSwitch => verbs ["set"; "turn"; "switch"] lowered
  | DimBrighten => verbs ["dim"; "brighten"] lowered
  | SetBrightnessOf =>
      match stripPrefix "set" lowered with
      | Some s1 =>
          match spaces s1 with
          | Some s2 =>
              match stripPrefix "brightness" s2 with
              | Some s3 =>
                  match spaces s3 with
                  | Some s4 => verbs ["of"] s4
                  | None => None
                  end
              | None => None
              end
          | None => None
          end
      | None => None
      end
  end.

Definition patterns : list Pattern := [SetTurnSwitch; SetBrightnessOf; DimBrighten].

End Brightness.

(** [clampPercent]; the argument [None] is [NaN], the result [None] is [null]. *)
Definition clampPercent (value : option Z) : option Z :=
  match value with
  | None => None
  | Some v =>
      if (v <? 0)%Z then Some 0%Z
      else if (100 <? v)%Z then Some 100%Z
      else Some v
  end.

(** [dedupeEntities] *)
Fixpoint dedupeEntities (seen : gset string) (l : list Entity) : list Entity :=
  match l with
  | [] => []
  | e :: rest =>
      if bool_decide (entity_id e ∈ seen) then dedupeEntities seen rest
      else e :: dedupeEntities ({[entity_id e]} ∪ seen) rest
  end.

Record BrightnessAction := {
  brightnessService : string;
  brightnessEntityId : string;
  brightness_pct : Z;
  brightnessName : string;
}.

Record BrightnessIntent := {
  brightnessActions : list BrightnessAction;
  brightnessMessage : string;
}.

(** How one iteration of [for (const pattern of patterns)] ends. *)
Inductive Outcome :=
| Continue
| ReturnNull
| Return (intent : BrightnessIntent).

Definition lightOptions : SelectOptions :=
  {| preferredDomains := ["light"]; limit := Some 5%nat; minScore := None |}.

Definition pronouns : list string := ["it"; "this"; "that"; "them"].

Definition fillerTokens : list string := ["all"; "light"; "lights"; "lamp"; "lamps"].

Definition isDimmableLight (e : Entity) : bool :=
  String.eqb (domain e) "light" && supportsBrightness e.

(** The candidates that group mode starts from:
    [findEntityCandidates(query || rawTarget, 50, { preferredDomains: ["light"] })]. *)
Definition groupCandidates (env : Env) (rawTarget : string) (filterTokens : list string)
  : list Candidate :=
  let query := Js.join " " filterTokens in
  findEntityCandidates env (if Js.isEmpty query then rawTarget else query) 50 ["light"].

(** The second filter of group mode: every filter token occurs in the
    normalized text or in the lowercased id. *)
Definition matchesFilterTokens (filterTokens : list string) (e : Entity) : bool :=
  match filterTokens with
  | [] => true
  | _ =>
      forallb
        (fun token =>
           Js.includes (normalized e) token
           || Js.includes (Js.toLowerCase (entity_id e)) token)
        filterTokens
  end.

(** Group mode: the targets pushed when the request names "all". *)
Definition groupTargets (env : Env) (rawTarget : string) (filterTokens : list string)
  : list Entity :=
  map entity
    (List.filter (fun candidate => matchesFilterTokens filterTokens (entity candidate))
       (List.filter (fun candidate => isDimmableLight (entity candidate))
          (groupCandidates env rawTarget filterTokens))).

(** The body of [for (const segment of segments)]: the target pushed for a
    segment, if any. *)
Definition segmentTarget (env : Env) (sender : string) (segment : string)
  : option Entity :=
  let selected := selectEntityId env segment lightOptions in
  let notALight :=
    match selected ≫= getEntityById env with
    | Some e => negb (String.eqb (domain e) "light")
    | None => true
    end in
  let entityId :=
    if (negb (Js.truthy selected) || notALight) && Js.has pronouns segment then
      let lastId := getLastEntityId env sender in
      let lastEntity := if Js.truthy lastId then lastId ≫= getEntityById env else None in
      match lastEntity with
      | Some e => if String.eqb (domain e) "light" then Some (entity_id e) else selected
      | None => selected
      end
    else selected in
  if Js.truthy entityId then
    match entityId ≫= getEntityById env with
    | Some e => if supportsBrightness e then Some e else None
    | None => None
    end
  else
    entity <$>
      List.find (fun item => isDimmableLight (entity item))
        (findEntityCandidates env segment 5 ["light"]).

Definition showNat (n : nat) : string := NilEmpty.string_of_uint (Nat.to_uint n).

Definition showZ (z : Z) : string :=
  if (z <? 0)%Z then "-" +:+ showNat (Z.abs_nat z) else showNat (Z.abs_nat z).

(** The action built for a target:
    [{ service: "light.turn_on", entity_id, data: { brightness_pct: value }, name }]. *)
Definition turnOnAt (value : Z) (e : Entity) : BrightnessAction :=
  {| brightnessService := "light.turn_on";
     brightnessEntityId := entity_id e;
     brightness_pct := value;
     brightnessName := name e |}.

(** What follows the collection of [targets]: de-duplicate, keep the
    dimmable ones, build the actions and the message. *)
Definition brightnessIntent (isAllRequest : bool) (value : Z) (targets : list Entity)
  : Outcome :=
  let uniqueTargets := dedupeEntities ∅ targets in
  let dimmableTargets := List.filter supportsBrightness uniqueTargets in
  match dimmableTargets with
  | [] => Continue
  | first :: _ =>
      let actions := map (turnOnAt value) dimmableTargets in
      let count := length dimmableTargets in
      let summaryName :=
        if isAllRequest then
          showNat count +:+ " light" +:+ (if (1 <? count)%nat then "s" else "")
        else if (1 <? count)%nat then Js.join ", " (map name dimmableTargets)
        else name first in
      Return {| brightnessActions := actions;
                brightnessMessage := summaryName +:+ " set to " +:+ showZ value +:+ "%" |}
  end.

(** One iteration of the pattern loop, for a pattern that matched with
    captures [(target, digits)]. *)
Definition brightnessAttempt (env : Env) (sender : string)
    (captures : string * string) : Outcome :=
  let rawTarget := Js.trim (fst captures) in
  match clampPercent (Js.parseInt (snd captures)) with
  | None => Continue
  | Some value =>
      let rawTokens := tokenizeForMatch rawTarget in
      let filterTokens :=
        List.filter (fun token => negb (Js.has fillerTokens token)) rawTokens in
      let isAllRequest := Js.has rawTokens "all" in
      if isAllRequest then
        brightnessIntent true value (groupTargets env rawTarget filterTokens)
      else
        let segments := splitConjunctionTargets rawTarget in
        let targets := omap (segmentTarget env sender) segments in
        if (1 <? length segments)%nat && (length targets <? length segments)%nat
        then ReturnNull
        else brightnessIntent false value targets
  end.

(** [for (const pattern of patterns)] *)
Fixpoint brightnessLoop (env : Env) (sender lowered : string)
    (patterns : list Brightness.Pattern) : option BrightnessIntent :=
  match patterns with
  | [] => None
  | p :: rest =>
      match Brightness.matchPattern p lowered with
      | None => brightnessLoop env sender lowered rest
      | Some captures =>
          match brightnessAttempt env sender captures with
          | Continue => brightnessLoop env sender lowered rest
          | ReturnNull => None
          | Return intent => Some intent
          end
      end
  end.

(** [detectBrightnessCommand(text, sender, deps)]; [deps.getLastEntityId ||
    getLastEntityId] is the field [getLastEntityId] of [env]. *)
Definition detectBrightnessCommand (env : Env) (text sender : string)
  : option BrightnessIntent :=
  brightnessLoop env sender (Js.trim (Js.toLowerCase text)) Brightness.patterns.

(* ------------------------------------------------------------------------- *)
(** ** haContext.js: the derived indexes                                      *)
(* ------------------------------------------------------------------------- *)

(** [new Set(tokens)]: the distinct tokens, in order of first occurrence. *)
Fixpoint distinct (seen : list string) (l : list string) : list string :=
  match l with
  | [] => []
  | x :: r => if Js.has seen x then distinct seen r else x :: distinct (x :: seen) r
  end.

(** [tokenEntityCount.set(token, (tokenEntityCount.get(token) || 0) + 1)] *)
Definition countToken (counts : gmap string nat) (token : string) : gmap string nat :=
  <[token := S (default O (counts !! token))]> counts.

(** The first loop of [buildTokenIdf]. *)
Definition tokenEntityCount (index : list Entity) : gmap string nat :=
  foldl
    (fun counts e => foldl countToken counts (distinct [] (tokenizeForMatch (normalized e))))
    ∅ index.

(** [searchIndex.length || 1] *)
Definition totalEntities (index : list Entity) : nat :=
  match length index with
  | O => 1%nat
  | n => n
  end.

(** [Math.max(0.5, Math.min(raw, 10))] *)
Definition clampIdf (raw : Q) : Q := Qmax (1 # 2) (Qmin raw 10).

Section Indexes.

(** [Math.log2] *)
Variable log2 : Q -> Q.

(** [buildTokenIdf] *)
Definition buildTokenIdf (index : list Entity) : gmap string Q :=
  (fun count => clampIdf (log2 (natQ (totalEntities index) / natQ count)))
    <$> tokenEntityCount index.

(** [rebuildIndexes], for the two indexes the resolver reads:
    [entityMap = new Map(entities.map(e => [e.entity_id, e]))] and
    [tokenIdf = buildTokenIdf(searchIndex)]. *)
Definition rebuildIndexes (ents index : list Entity) : HaContext :=
  {| entities := ents;
     searchIndex := index;
     entityMap := foldl (fun m e => <[entity_id e := e]> m) ∅ ents;
     tokenIdf := buildTokenIdf index |}.

End Indexes.

(** The document frequency of a token: the number of index entries whose
    normalized text has the token among its tokens. *)
Definition df (index : list Entity) (t : string) : nat :=
  length (List.filter (fun e => Js.has (tokenizeForMatch (normalized e)) t) index).

(* ------------------------------------------------------------------------- *)
(** ** Sample registries                                                      *)
(* ------------------------------------------------------------------------- *)

Module Sample.

(** Code-unit order, standing for the host collation. *)
Definition codeUnitOrder : string -> string -> comparison := String.compare.

(** The integer part of the binary logarithm, standing for [Math.log2]. *)
Definition floorLog2 (x : Q) : Q := inject_Z (Z.log2 (Qfloor x)).

Definition light (id nm : string) (ar : option string) (dimmable : bool) : Entity :=
  {| entity_id := id; domain := "light"; name := nm; area := ar; state := "off";
     normalized :=
       Js.toLowerCase (nm +:+ " " +:+ id +:+
                       match ar with Some a => " " +:+ a | None => "" end +:+ " light");
     supportsBrightness := dimmable |}.

Definition other (dom id nm : string) (ar : option string) : Entity :=
  {| entity_id := id; domain := dom; name := nm; area := ar; state := "on";
     normalized :=
       Js.toLowerCase (nm +:+ " " +:+ id +:+
                       match ar with Some a => " " +:+ a | None => "" end +:+ " " +:+ dom);
     supportsBrightness := false |}.

Definition whiskey := light "light.whiskey" "Whiskey" None true.
Definition couch := light "light.couch" "Couch Lamp" None true.
Definition wall := light "light.the_wall" "Wall Lamp" None true.
Definition whiskeySensor := other "sensor" "sensor.whiskey" "Whiskey" None.

(** A process that has just loaded the registry [ents] and reads the alias
    document [document] for the first time. *)
Definition envOf (ents : list Entity) (document : list (string * string)) : Env :=
  {| haContext := rebuildIndexes floorLog2 ents ents;
     aliases :=
       fst (loadAliases 0 (Some document) {| aliasCache := None; aliasLastLoaded := 0 |});
     getLastEntityId := fun _ => None;
     localeCompare := codeUnitOrder |}.

(** The living room of the test script: three dimmable lights and their
    aliases, and a sensor that shares a name with one of them. *)
Definition home : Env :=
  envOf [whiskeySensor; whiskey; couch; wall]
    [("whiskey", "light.whiskey"); ("couch", "light.couch");
     ("the wall", "light.the_wall")].

(** An alias table with an entry for the empty phrase. *)
Definition emptyPhrase : Env :=
  envOf [whiskey] [("", "light.whiskey")].

(** An alias that points at an entity the registry does not have. *)
Definition stale : Env :=
  envOf [whiskey] [("porch", "light.porch")].


(** Two sensors whose ids contain "xyz" inside a longer word. *)
Definition sensors : Env :=
  envOf [ other "sensor" "sensor.abcxyz" "Zed" None;
          other "sensor" "sensor.defxyz" "Alpha" None ] [].

Definition noOptions : SelectOptions :=
  {| preferredDomains := []; limit := None; minScore := None |}.

(** A hall with 51 dimmable lights. *)
Definition hall : Env :=
  envOf
    (map (fun n => light ("light.hall_" +:+ showNat n) ("Hall " +:+ showNat n) None true)
       (seq 0 51))
    [].

End Sample.

(* ------------------------------------------------------------------------- *)
(** ** Notions used to state the properties                                   *)
(* ------------------------------------------------------------------------- *)

(** A comparator that [Array.prototype.sort] can rely on: swapping the
    arguments flips the sign, and "not after" is transitive. *)
Definition consistentComparator {A} (cmp : A -> A -> comparison) : Prop :=
  (forall a b, cmp a b = CompOpp (cmp b a)) /\
  (forall a b c, cmp a b <> Gt -> cmp b c <> Gt -> cmp a c <> Gt).

(** [a] may stand before [b] in an array sorted by [cmp]. *)
Definition notAfter {A} (cmp : A -> A -> comparison) (a b : A) : Prop :=
  cmp a b <> Gt.

(** [a] may stand before [b] in a list ranked by descending score, ties by
    ascending name: [a] has the higher score, or the scores are equal and the
    name of [a] does not come after the name of [b]. *)
Definition rankedBefore (env : Env) (a b : Candidate) : Prop :=
  (score b < score a)%Q \/
  ((score a == score b)%Q /\
   localeCompare env (name (entity a)) (name (entity b)) <> Gt).

(** The entity ids of a list of candidates. *)
Definition candidateIds (l : list Candidate) : list string :=
  map (fun c => entity_id (entity c)) l.

(** [c] is the first candidate of [l] with its entity id. *)
Definition firstWithItsId (l : list Candidate) (c : Candidate) : Prop :=
  exists before after,
    l = (before ++ c :: after)%list /\ ~ In (entity_id (entity c)) (candidateIds before).

(** A segment of a direct command resolves to the entity [e]: the selector
    returns a (truthy) id and the registry has [e] under that id. *)
Definition resolvesTo (env : Env) (segment : string) (e : Entity) : Prop :=
  exists entityId,
    selectEntityId env segment directOptions = Some entityId /\
    Js.isEmpty entityId = false /\
    getEntityById env entityId = Some e.

(** The completeness ratio as the specification words it: the number of
    distinct name tokens that occur among the query tokens, over the number
    of name tokens, times five. *)
Definition specCompleteness (e : Entity) (tokens : list string) : Q :=
  let nameTokens := tokenizeForMatch (Js.toLowerCase (name e)) in
  (natQ (length (List.filter (Js.has tokens) (distinct [] nameTokens)))
   / natQ (length nameTokens) * 5)%Q.

(** The part of the score that signal 8 adds. *)
Definition completenessContribution (e : Entity) (tokens preferred : list string)
    (idf : gmap string Q) : Q :=
  (scoreEntity e tokens preferred idf
   - fst (fst (scoreSignals1to7 e tokens preferred idf)))%Q.

(** The second capture group: one to three decimal digits. *)
Definition capturedNumber (d : string) : Prop :=
  Js.leadingDigits d = d /\ 1 <= String.length d <= 3.

(** A pattern that the loop passes over: it does not match, or its
    iteration ends in [continue]. *)
Definition passedOver (env : Env) (sender lowered : string) (p : Brightness.Pattern) : Prop :=
  match Brightness.matchPattern p lowered with
  | None => True
  | Some captures => brightnessAttempt env sender captures = Continue
  end.

(** A count after [k] more entities that carry the token. *)
Definition advanced (count : option nat) (k : nat) : option nat :=
  match k with
  | O => count
  | S _ => Some (default O count + k)
  end.

(** The [clamp(x, lo, hi)] of the specification: [lo] below [lo], [hi]
    above [hi], [x] in between. *)
Definition specClamp (x lo hi : Q) : Q :=
  if Qle_bool x lo then lo else if Qle_bool hi x then hi else x.




(** The filter tokens of a brightness target: its tokens without "all" and
    the words for lights. *)
Definition groupFilterTokens (target : string) : list string :=
  List.filter
    (fun token => negb (Js.has ["all"; "light"; "lights"; "lamp"; "lamps"] token))
    (tokenizeForMatch (Js.trim target)).

(** The text that group mode searches for: the filter tokens joined by
    spaces, or the trimmed target when no filter token is left. *)
Definition groupQuery (target : string) : string :=
  if Js.isEmpty (Js.join " " (groupFilterTokens target)) then Js.trim target
  else Js.join " " (groupFilterTokens target).

(* ========================================================================= *)
(** * Properties                                                              *)
(* ========================================================================= *)

(** ** The tokenizer on the inputs of the test script *)

Example tokenize_keeps_ac : tokenizeForMatch "Turn on the AC" = ["turn"; "the"; "ac"].
Proof. vm_compute. reflexivity. Qed.

Example tokenize_drops_a : tokenizeForMatch "a" = [].
Proof. vm_compute. reflexivity. Qed.

Example split_three_targets :
  splitConjunctionTargets "couch, the wall, and whiskey" = ["couch"; "the wall"; "whiskey"].
Proof. vm_compute. reflexivity. Qed.

(** ** Alias precedence *)

Lemma resolveAlias_hit env text id :
  Js.isEmpty (Js.trim (Js.toLowerCase text)) = false ->
  Js.isEmpty id = false ->
  aliases env !! Js.trim (Js.toLowerCase text) = Some id ->
  resolveAlias env text = Some id.
Proof.
  intros Hphrase Hid Hlookup. unfold resolveAlias.
  rewrite Hphrase, Hlookup, Hid. reflexivity.
Qed.

(** C1 (as amended). For every text whose lowercased, trimmed form is not
    empty: when the alias table maps that form to a non-empty entity id,
    [selectEntityId] returns that id, whatever the options are and whatever
    the candidate search would rank first. *)
Theorem selectEntityId_alias_precedence env text options id :
  Js.isEmpty (Js.trim (Js.toLowerCase text)) = false ->
  Js.isEmpty id = false ->
  aliases env !! Js.trim (Js.toLowerCase text) = Some id ->
  selectEntityId env text options = Some id.
Proof.
  intros Hphrase Hid Hlookup. unfold selectEntityId.
  rewrite (resolveAlias_hit env text id Hphrase Hid Hlookup). reflexivity.
Qed.

(** In the sample home the candidate search ranks the sensor first for
    "whiskey"; the alias wins all the same. *)
Lemma selectEntityId_alias_precedence_witness :
  (entity_id ∘ entity <$> head (findEntityCandidates Sample.home " Whiskey" 5 []))
    = Some "sensor.whiskey" /\
  selectEntityId Sample.home " Whiskey" Sample.noOptions = Some "light.whiskey".
Proof.
  split.
  - vm_compute. reflexivity.
  - apply (selectEntityId_alias_precedence Sample.home " Whiskey" Sample.noOptions
             "light.whiskey").
    + vm_compute. reflexivity.
    + vm_compute. reflexivity.
    + vm_compute. reflexivity.
Defined.

(** C1 as stated fails on the empty phrase: the table of [Sample.emptyPhrase]
    maps the lowercased, trimmed form of a blank text to an entity id, and
    [selectEntityId] returns nothing for that text. *)
Lemma selectEntityId_alias_empty_phrase :
  aliases Sample.emptyPhrase !! Js.trim (Js.toLowerCase "  ") = Some "light.whiskey" /\
  selectEntityId Sample.emptyPhrase "  " Sample.noOptions = None.
Proof. split; vm_compute; reflexivity. Qed.

(** C10. The alias path checks nothing against the registry: in
    [Sample.stale] the table maps "porch" to an id that no entity of the
    snapshot has; [selectEntityId] returns that id and [getEntityById] finds
    nothing for it. *)
Theorem selectEntityId_alias_unchecked :
  exists env phrase id,
    aliases env !! phrase = Some id /\
    Forall (fun e => entity_id e <> id) (entities (haContext env) ++ searchIndex (haContext env)) /\
    selectEntityId env phrase Sample.noOptions = Some id /\
    getEntityById env id = None.
Proof.
  exists Sample.stale, "porch", "light.porch".
  split; [vm_compute; reflexivity|].
  split; [repeat constructor; vm_compute; discriminate|].
  split; vm_compute; reflexivity.
Qed.

(** ** Direct on/off commands: all segments or nothing *)

Lemma startsWith_append s p :
  Js.startsWith s p = true -> s = p +:+ Js.substringFrom (String.length p) s.
Proof.
  unfold Js.startsWith. revert s.
  induction p as [|c p IH]; intros s H; [reflexivity|].
  destruct s as [|d s]; [discriminate|]. simpl in H.
  destruct (ascii_dec c d) as [->|]; [|discriminate].
  change (String d s = String d (p +:+ Js.substringFrom (String.length p) s)).
  f_equal. apply IH, H.
Qed.

(** A text starts with at most one of the four prefixes. *)
Lemma directPatterns_exclusive s p q :
  In p directPatterns -> In q directPatterns ->
  Js.startsWith s (prefix p) = true -> Js.startsWith s (prefix q) = true ->
  p = q.
Proof.
  intros Hp Hq Hsp Hsq.
  apply startsWith_append in Hsp. apply startsWith_append in Hsq.
  rewrite Hsp in Hsq. clear Hsp.
  simpl in Hp, Hq.
  destruct Hp as [<-|[<-|[<-|[<-|[]]]]]; destruct Hq as [<-|[<-|[<-|[<-|[]]]]];
    try reflexivity; vm_compute in Hsq; discriminate.
Qed.

Lemma omap_cons {A B} (f : A -> option B) x l :
  omap f (x :: l) = match f x with Some y => y :: omap f l | None => omap f l end.
Proof. reflexivity. Qed.

Lemma omap_length_le {A B} (f : A -> option B) l : length (omap f l) <= length l.
Proof.
  induction l as [|x l IH]; [reflexivity|].
  rewrite omap_cons. destruct (f x); simpl; lia.
Qed.

(** When [omap] drops nothing, every element was mapped. *)
Lemma omap_complete {A B} (f : A -> option B) l :
  length l <= length (omap f l) ->
  Forall2 (fun x y => f x = Some y) l (omap f l).
Proof.
  induction l as [|x l IH]; [constructor|].
  rewrite omap_cons. intros Hlen.
  pose proof (omap_length_le f l) as Hle.
  destruct (f x) as [y|] eqn:Hfx; simpl in *.
  - constructor; [assumption|]. apply IH. lia.
  - lia.
Qed.

Lemma omap_partial {A B} (f : A -> option B) l x :
  In x l -> f x = None -> length (omap f l) < length l.
Proof.
  induction l as [|y l IH]; intros Hin Hnone; [contradiction|].
  rewrite omap_cons. pose proof (omap_length_le f l) as Hle.
  destruct Hin as [->|Hin].
  - rewrite Hnone. simpl. lia.
  - specialize (IH Hin Hnone). destruct (f y); simpl; lia.
Qed.

(** What a returned intent tells about the loop: it was built for a pattern
    of the list whose prefix the text has, and from as many actions as there
    are segments. *)
Lemma directLoop_returns env trimmed lowered patterns intent :
  directLoop env trimmed lowered patterns = Some intent ->
  exists p,
    In p patterns /\
    Js.startsWith lowered (prefix p) = true /\
    directActions intent = omap (directAction env p) (directSegments p trimmed) /\
    directActions intent <> [] /\
    length (directSegments p trimmed) <= length (directActions intent).
Proof.
  induction patterns as [|p rest IH]; simpl; intros H; [discriminate|].
  destruct (Js.startsWith lowered (prefix p)) eqn:Hstart; simpl in H.
  - destruct (length (omap (directAction env p) (directSegments p trimmed)) =? 0)%nat
      eqn:Hnone.
    + destruct (IH H) as (q & Hq & ?). exists q. split; [right; exact Hq|assumption].
    + destruct (length (omap (directAction env p) (directSegments p trimmed))
                <? length (directSegments p trimmed))%nat eqn:Hfew; [discriminate|].
      injection H as <-. exists p. simpl.
      apply Nat.eqb_neq in Hnone. apply Nat.ltb_ge in Hfew.
      repeat split; try assumption; [left; reflexivity|].
      intros Hnil. rewrite Hnil in Hnone. apply Hnone. reflexivity.
  - destruct (IH H) as (q & Hq & ?). exists q. split; [right; exact Hq|assumption].
Qed.

Lemma directAction_resolves env p segment action :
  directAction env p segment = Some action <->
  exists e, resolvesTo env segment e /\ action = directActionOn p e.
Proof.
  unfold directAction, resolvesTo, directActionOn. split.
  - destruct (selectEntityId env segment directOptions) as [entityId|]; [|discriminate].
    destruct (Js.isEmpty entityId) eqn:Hid; [discriminate|].
    destruct (getEntityById env entityId) as [e|] eqn:He; [|discriminate].
    intros [= <-]. exists e. split; [|reflexivity]. exists entityId. auto.
  - intros (e & (entityId & -> & -> & ->) & ->). reflexivity.
Qed.

Lemma directAction_unresolved env p segment :
  directAction env p segment = None <-> forall e, ~ resolvesTo env segment e.
Proof.
  split.
  - intros Hnone e He.
    assert (H : directAction env p segment = Some (directActionOn p e))
      by (apply directAction_resolves; exists e; auto).
    congruence.
  - intros Hnot. destruct (directAction env p segment) as [action|] eqn:H; [|reflexivity].
    apply directAction_resolves in H as (e & He & _). destruct (Hnot e He).
Qed.

(** C2. Let the trimmed, lowercased text start with the prefix of a direct
    pattern, and take the segments of what follows the prefix. An intent
    that [detectDirectAliasCommand] returns has exactly one action per
    segment, in order, each on an entity that its segment resolved to; and
    when some segment resolves to no entity, the result is null. *)
Theorem detectDirectAliasCommand_atomic env text p :
  In p directPatterns ->
  Js.startsWith (Js.toLowerCase (Js.trim text)) (prefix p) = true ->
  (forall intent,
     detectDirectAliasCommand env text = Some intent ->
     Forall2
       (fun segment action =>
          exists e, resolvesTo env segment e /\ action = directActionOn p e)
       (directSegments p (Js.trim text)) (directActions intent)) /\
  ((exists segment,
      In segment (directSegments p (Js.trim text)) /\
      forall e, ~ resolvesTo env segment e) ->
   detectDirectAliasCommand env text = None).
Proof.
  intros Hp Hstart.
  assert (Hall : forall intent,
     detectDirectAliasCommand env text = Some intent ->
     directActions intent
       = omap (directAction env p) (directSegments p (Js.trim text)) /\
     length (directSegments p (Js.trim text)) <= length (directActions intent)).
  { intros intent H. unfold detectDirectAliasCommand in H.
    apply directLoop_returns in H as (q & Hq & Hstartq & Hactions & _ & Hlen).
    assert (q = p) as -> by (eapply directPatterns_exclusive; eassumption).
    auto. }
  split.
  - intros intent H. destruct (Hall intent H) as [Hactions Hlen].
    rewrite Hactions in *.
    eapply List.Forall2_impl; [|apply omap_complete, Hlen].
    intros segment action. apply directAction_resolves.
  - intros (segment & Hin & Hnone).
    destruct (detectDirectAliasCommand env text) as [intent|] eqn:Hres; [|reflexivity].
    exfalso. destruct (Hall intent eq_refl) as [Hactions Hlen].
    apply directAction_unresolved with (p := p) in Hnone.
    pose proof (omap_partial _ _ _ Hin Hnone) as Hlt.
    rewrite Hactions in Hlen. lia.
Qed.

Lemma detectDirectAliasCommand_atomic_witness :
  is_Some (detectDirectAliasCommand Sample.home "Turn on couch and the wall") /\
  detectDirectAliasCommand Sample.home "Turn on couch and the" = None.
Proof.
  split.
  - vm_compute. eexists. reflexivity.
  - apply (detectDirectAliasCommand_atomic Sample.home "Turn on couch and the"
             {| prefix := "turn on "; service := "turn_on" |}).
    + vm_compute. left. reflexivity.
    + vm_compute. reflexivity.
    + exists "the". split; [vm_compute; right; left; reflexivity|].
      intros e (entityId & Hselect & _). vm_compute in Hselect. discriminate Hselect.
Defined.

(** ** Brightness commands: what the patterns capture *)

Lemma digit_not_space c : Js.isDigit c = true -> Js.isWhiteSpace c = false.
Proof.
  destruct c as [[] [] [] [] [] [] [] []]; vm_compute; congruence.
Qed.

Lemma digit_not_sign c :
  Js.isDigit c = true -> (Js.code c =? 45)%N = false /\ (Js.code c =? 43)%N = false.
Proof.
  destruct c as [[] [] [] [] [] [] [] []]; vm_compute; intuition congruence.
Qed.

Lemma leadingDigits_idempotent s :
  Js.leadingDigits (Js.leadingDigits s) = Js.leadingDigits s.
Proof.
  induction s as [|c s IH]; simpl; [reflexivity|].
  destruct (Js.isDigit c) eqn:Hc; simpl; [|reflexivity].
  rewrite Hc, IH. reflexivity.
Qed.

Lemma digitsValue_nonneg s : forall acc, (0 <= acc -> 0 <= Js.digitsValue acc s)%Z.
Proof.
  induction s as [|c s IH]; simpl; intros acc Hacc; [assumption|].
  apply IH. lia.
Qed.

(** [parseInt] of a non-empty string of digits is its decimal value. *)
Lemma parseInt_digits d :
  Js.leadingDigits d = d -> Js.isEmpty d = false ->
  Js.parseInt d = Some (Js.digitsValue 0 d).
Proof.
  intros Hall Hne. destruct d as [|c d]; [discriminate|].
  simpl in Hall. destruct (Js.isDigit c) eqn:Hc; [|discriminate].
  unfold Js.parseInt. simpl Js.trimStart. rewrite (digit_not_space c Hc).
  destruct (digit_not_sign c Hc) as [-> ->].
  simpl Js.leadingDigits. rewrite Hc. injection Hall as ->. reflexivity.
Qed.

Lemma tail_captures s d : Brightness.tail s = Some d -> capturedNumber d.
Proof.
  unfold Brightness.tail. intros H.
  destruct (Brightness.spaces s) as [s1|]; [|discriminate].
  destruct (Brightness.stripPrefix "to" s1) as [s2|]; [|discriminate].
  destruct (Brightness.spaces s2) as [s3|]; [|discriminate].
  destruct ((1 <=? String.length (Js.leadingDigits s3))%nat) eqn:H1; [|discriminate].
  destruct ((String.length (Js.leadingDigits s3) <=? 3)%nat) eqn:H3; [|discriminate].
  simpl in H. destruct (Brightness.unitThenEnd _); [|discriminate].
  injection H as <-. apply Nat.leb_le in H1, H3.
  split; [apply leadingDigits_idempotent|lia].
Qed.

Lemma lazyTarget_captures s : forall cur t d,
  Brightness.lazyTarget cur s = Some (t, d) -> capturedNumber d.
Proof.
  induction s as [|c s IH]; intros cur t d H; cbn [Brightness.lazyTarget] in H;
    [discriminate|].
  destruct (Js.isLineTerminator c); [discriminate|].
  destruct (Brightness.tail s) as [d'|] eqn:Htail.
  - injection H as _ <-. eapply tail_captures, Htail.
  - eapply IH, H.
Qed.

Lemma afterVerb_captures n : forall s t d,
  Brightness.afterVerb n s = Some (t, d) -> capturedNumber d.
Proof.
  induction n as [|n IH]; intros s t d H; cbn [Brightness.afterVerb] in H;
    [discriminate|].
  destruct (Brightness.lazyTarget "" (Js.substringFrom (S n) s)) as [[t' d']|] eqn:Hlazy.
  - injection H as _ <-. eapply lazyTarget_captures, Hlazy.
  - eapply IH, H.
Qed.

Lemma verbs_captures alternatives : forall s t d,
  Brightness.verbs alternatives s = Some (t, d) -> capturedNumber d.
Proof.
  induction alternatives as [|v rest IH]; intros s t d H; cbn [Brightness.verbs] in H;
    [discriminate|].
  destruct (Brightness.stripPrefix v s) as [r|]; [|eapply IH, H].
  destruct (Brightness.afterVerb (Js.wsLen r) r) as [[t' d']|] eqn:Hafter.
  - injection H as _ <-. eapply afterVerb_captures, Hafter.
  - eapply IH, H.
Qed.

(** A value that is not one to three digits makes no pattern match. *)
Lemma matchPattern_captures p lowered t d :
  Brightness.matchPattern p lowered = Some (t, d) -> capturedNumber d.
Proof.
  destruct p; unfold Brightness.matchPattern; intros H.
  - eapply verbs_captures, H.
  - destruct (Brightness.stripPrefix "set" lowered) as [s1|]; [|discriminate].
    destruct (Brightness.spaces s1) as [s2|]; [|discriminate].
    destruct (Brightness.stripPrefix "brightness" s2) as [s3|]; [|discriminate].
    destruct (Brightness.spaces s3) as [s4|]; [|discriminate].
    eapply verbs_captures, H.
  - eapply verbs_captures, H.
Qed.

Lemma clampPercent_captured d :
  capturedNumber d ->
  clampPercent (Js.parseInt d) = Some (Z.min 100 (Js.digitsValue 0 d)).
Proof.
  intros [Hall Hlen].
  rewrite parseInt_digits; [|assumption|destruct d; [simpl in Hlen; lia|reflexivity]].
  pose proof (digitsValue_nonneg d 0%Z ltac:(lia)) as Hpos.
  unfold clampPercent.
  destruct (Z.ltb_spec (Js.digitsValue 0 d) 0); [lia|].
  destruct (Z.ltb_spec 100 (Js.digitsValue 0 d)); f_equal; lia.
Qed.

(** ** Brightness commands: the pattern loop *)

Lemma brightnessLoop_passes env sender lowered before rest :
  Forall (passedOver env sender lowered) before ->
  brightnessLoop env sender lowered (before ++ rest)
  = brightnessLoop env sender lowered rest.
Proof.
  induction 1 as [|p before Hp _ IH]; [reflexivity|].
  cbn [app brightnessLoop]. unfold passedOver in Hp.
  destruct (Brightness.matchPattern p lowered) as [captures|]; [|exact IH].
  rewrite Hp. exact IH.
Qed.

Lemma brightnessLoop_returns env sender lowered patterns intent :
  brightnessLoop env sender lowered patterns = Some intent ->
  exists p captures,
    In p patterns /\
    Brightness.matchPattern p lowered = Some captures /\
    brightnessAttempt env sender captures = Return intent.
Proof.
  induction patterns as [|p rest IH]; intros H; cbn [brightnessLoop] in H; [discriminate|].
  destruct (Brightness.matchPattern p lowered) as [captures|] eqn:Hmatch.
  - destruct (brightnessAttempt env sender captures) as [| |intent'] eqn:Hattempt.
    + destruct (IH H) as (q & c & Hq & ?). exists q, c. split; [right; exact Hq|assumption].
    + discriminate.
    + injection H as ->. exists p, captures. split; [left; reflexivity|]. split; assumption.
  - destruct (IH H) as (q & c & Hq & ?). exists q, c. split; [right; exact Hq|assumption].
Qed.

Lemma brightnessIntent_actions isAllRequest value targets intent :
  brightnessIntent isAllRequest value targets = Return intent ->
  brightnessActions intent
  = map (turnOnAt value) (List.filter supportsBrightness (dedupeEntities ∅ targets)).
Proof.
  unfold brightnessIntent. intros H.
  destruct (List.filter supportsBrightness (dedupeEntities ∅ targets)); [discriminate|].
  injection H as <-. reflexivity.
Qed.

(** What a returned intent tells about the iteration that built it. *)
Lemma brightnessAttempt_returns env sender captures intent :
  brightnessAttempt env sender captures = Return intent ->
  exists value targets,
    clampPercent (Js.parseInt (snd captures)) = Some value /\
    brightnessActions intent
    = map (turnOnAt value) (List.filter supportsBrightness (dedupeEntities ∅ targets)) /\
    let rawTarget := Js.trim (fst captures) in
    let rawTokens := tokenizeForMatch rawTarget in
    let filterTokens :=
      List.filter (fun token => negb (Js.has fillerTokens token)) rawTokens in
    if Js.has rawTokens "all"
    then targets = groupTargets env rawTarget filterTokens
    else targets = omap (segmentTarget env sender) (splitConjunctionTargets rawTarget).
Proof.
  unfold brightnessAttempt. intros H.
  destruct (clampPercent (Js.parseInt (snd captures))) as [value|]; [|discriminate].
  exists value.
  destruct (Js.has (tokenizeForMatch (Js.trim (fst captures))) "all") eqn:Hall.
  - eexists. split; [reflexivity|]. split; [eapply brightnessIntent_actions, H|].
    reflexivity.
  - destruct (_ && _) in H; [discriminate|].
    eexists. split; [reflexivity|]. split; [eapply brightnessIntent_actions, H|].
    reflexivity.
Qed.

(** C3. Take the first pattern of [detectBrightnessCommand] that the loop
    does not pass over, and let it match with a target that has no "all"
    token. When the target splits into more than one segment and fewer
    targets than segments are resolved, the result is null. *)
Theorem detectBrightnessCommand_partial_null env text sender before p after target digits :
  Brightness.patterns = (before ++ p :: after)%list ->
  Forall (passedOver env sender (Js.trim (Js.toLowerCase text))) before ->
  Brightness.matchPattern p (Js.trim (Js.toLowerCase text)) = Some (target, digits) ->
  Js.has (tokenizeForMatch (Js.trim target)) "all" = false ->
  1 < length (splitConjunctionTargets (Js.trim target)) ->
  length (omap (segmentTarget env sender) (splitConjunctionTargets (Js.trim target)))
    < length (splitConjunctionTargets (Js.trim target)) ->
  detectBrightnessCommand env text sender = None.
Proof.
  intros Hpatterns Hbefore Hmatch Hall Hmany Hfew.
  unfold detectBrightnessCommand. rewrite Hpatterns.
  rewrite brightnessLoop_passes by assumption.
  cbn [brightnessLoop]. rewrite Hmatch.
  unfold brightnessAttempt. cbn [fst snd].
  rewrite (clampPercent_captured digits (matchPattern_captures _ _ _ _ Hmatch)).
  rewrite Hall.
  apply Nat.ltb_lt in Hmany, Hfew. rewrite Hmany, Hfew. reflexivity.
Qed.

(** "the" is a stop word and no alias: of the two segments of
    "couch and the" only one resolves. *)
Lemma detectBrightnessCommand_partial_null_witness :
  is_Some (detectBrightnessCommand Sample.home "Set couch and the wall to 50%" "user") /\
  detectBrightnessCommand Sample.home "Set couch and the to 50%" "user" = None.
Proof.
  split.
  - vm_compute. eexists. reflexivity.
  - apply (detectBrightnessCommand_partial_null Sample.home "Set couch and the to 50%"
             "user" [] Brightness.SetTurnSwitch
             [Brightness.SetBrightnessOf; Brightness.DimBrighten] "couch and the" "50").
    + reflexivity.
    + constructor.
    + vm_compute. reflexivity.
    + vm_compute. reflexivity.
    + vm_compute. lia.
    + vm_compute. lia.
Defined.

(** C7 (as amended). An intent returned by [detectBrightnessCommand] comes
    from a pattern whose second capture is one to three decimal digits, and
    every action carries the value of those digits capped at 100, a number
    between 0 and 100; the digits "150" give 100. [clampPercent] would turn
    -5 into 0, but a signed or non-numeric value is no capture of any
    pattern. *)
Theorem detectBrightnessCommand_value env text sender intent :
  detectBrightnessCommand env text sender = Some intent ->
  (exists p target digits,
     In p Brightness.patterns /\
     Brightness.matchPattern p (Js.trim (Js.toLowerCase text)) = Some (target, digits) /\
     capturedNumber digits /\
     Forall (fun a => brightness_pct a = Z.min 100 (Js.digitsValue 0 digits))
       (brightnessActions intent) /\
     (digits = "150" -> Forall (fun a => brightness_pct a = 100%Z) (brightnessActions intent))) /\
  Forall (fun a => (0 <= brightness_pct a <= 100)%Z) (brightnessActions intent) /\
  clampPercent (Js.parseInt "150") = Some 100%Z /\
  clampPercent (Js.parseInt "-5") = Some 0%Z /\
  (forall p lowered target value,
     Brightness.matchPattern p lowered = Some (target, value) -> capturedNumber value).
Proof.
  intros H. unfold detectBrightnessCommand in H.
  apply brightnessLoop_returns in H as (p & [target digits] & Hp & Hmatch & Hattempt).
  apply brightnessAttempt_returns in Hattempt as (value & targets & Hvalue & Hactions & _).
  pose proof (matchPattern_captures _ _ _ _ Hmatch) as Hdigits.
  cbn [snd] in Hvalue. rewrite (clampPercent_captured digits Hdigits) in Hvalue.
  injection Hvalue as <-.
  assert (Hpct : Forall (fun a => brightness_pct a = Z.min 100 (Js.digitsValue 0 digits))
                   (brightnessActions intent)).
  { rewrite Hactions. apply List.Forall_forall. intros a Ha.
    apply in_map_iff in Ha as (e & <- & _). reflexivity. }
  split; [|split; [|split; [|split]]].
  - exists p, target, digits. repeat split; try assumption; try apply Hdigits.
    intros ->. exact Hpct.
  - pose proof (digitsValue_nonneg digits 0%Z ltac:(lia)).
    eapply List.Forall_impl; [|exact Hpct]. intros a Ha. simpl in Ha. lia.
  - reflexivity.
  - reflexivity.
  - intros q l t v Hq. eapply matchPattern_captures, Hq.
Qed.

Lemma detectBrightnessCommand_value_witness :
  exists intent,
    detectBrightnessCommand Sample.home "Set couch to 150%" "user" = Some intent /\
    Forall (fun a => brightness_pct a = 100%Z) (brightnessActions intent).
Proof.
  eexists. split; [vm_compute; reflexivity|].
  match goal with
  | |- Forall _ (brightnessActions ?i) =>
      destruct (detectBrightnessCommand_value Sample.home "Set couch to 150%" "user" i)
        as [(p & target & digits & _ & Hmatch & _ & _ & H150) _];
        [vm_compute; reflexivity|]
  end.
  apply H150.
  destruct p; vm_compute in Hmatch; congruence.
Defined.

(** C7 as stated fails on the value "-5": no pattern matches it, and the
    command that sets the same lamp to 5 is detected. *)
Lemma detectBrightnessCommand_negative_value :
  detectBrightnessCommand Sample.home "set couch to -5" "user" = None /\
  detectBrightnessCommand Sample.home "set couch to -5%" "user" = None /\
  ((fun intent => map brightness_pct (brightnessActions intent)) <$>
     detectBrightnessCommand Sample.home "set couch to 5" "user") = Some [5%Z].
Proof. repeat split; vm_compute; reflexivity. Qed.

(** ** Candidate search: the sort *)

Section Sort.

Context {A : Type} (cmp : A -> A -> comparison).
Hypothesis cmp_consistent : consistentComparator cmp.

Lemma insertBy_In x y l : In y (Js.insertBy cmp x l) <-> y = x \/ In y l.
Proof.
  induction l as [|z l IH]; simpl; [intuition|].
  destruct (cmp x z); simpl; rewrite ?IH; intuition.
Qed.

Lemma sort_In y l : In y (Js.sort cmp l) <-> In y l.
Proof.
  induction l as [|x l IH]; simpl; [reflexivity|].
  rewrite insertBy_In, IH. intuition.
Qed.

Lemma sort_nil l : Js.sort cmp l = [] -> l = [].
Proof.
  destruct l as [|x l]; [reflexivity|]. intros H. exfalso.
  assert (Hin : In x (Js.sort cmp (x :: l))) by (apply sort_In; left; reflexivity).
  rewrite H in Hin. exact Hin.
Qed.

Lemma insertBy_sorted x l :
  StronglySorted (notAfter cmp) l -> StronglySorted (notAfter cmp) (Js.insertBy cmp x l).
Proof.
  destruct cmp_consistent as [Hflip Htrans].
  induction 1 as [|y l Hsorted IH Hall]; simpl; [repeat constructor|].
  destruct (cmp x y) eqn:Hxy.
  - constructor; [constructor; assumption|].
    constructor; [unfold notAfter; congruence|].
    eapply List.Forall_impl; [|exact Hall].
    intros z Hyz. eapply Htrans; [|exact Hyz]. congruence.
  - constructor; [constructor; assumption|].
    constructor; [unfold notAfter; congruence|].
    eapply List.Forall_impl; [|exact Hall].
    intros z Hyz. eapply Htrans; [|exact Hyz]. congruence.
  - constructor; [exact IH|].
    apply List.Forall_forall. intros z Hz. apply insertBy_In in Hz as [->|Hz].
    + unfold notAfter. rewrite Hflip, Hxy. discriminate.
    + revert z Hz. apply List.Forall_forall. exact Hall.
Qed.

Lemma sort_sorted l : StronglySorted (notAfter cmp) (Js.sort cmp l).
Proof.
  induction l as [|x l IH]; simpl; [constructor|].
  apply insertBy_sorted, IH.
Qed.

End Sort.

Lemma StronglySorted_weaken {A} (R R' : A -> A -> Prop) l :
  (forall a b, R a b -> R' a b) -> StronglySorted R l -> StronglySorted R' l.
Proof.
  intros Himpl. induction 1 as [|x l Hsorted IH Hall]; constructor; [exact IH|].
  eapply List.Forall_impl; [|exact Hall]. intros b. apply Himpl.
Qed.

(** The comparator of the candidate sort is consistent when the collation
    is, and "not after" for it is [rankedBefore]. *)
Lemma compareCandidates_ranked env a b :
  compareCandidates env a b <> Gt <-> rankedBefore env a b.
Proof.
  unfold compareCandidates, rankedBefore.
  destruct (Qcompare_spec (score b) (score a)) as [Heq|Hlt|Hgt].
  - split; [intros H; right; split; [symmetry; exact Heq|exact H]|].
    intros [Hlt|[_ H]]; [|exact H]. rewrite Heq in Hlt. exfalso. eapply Qlt_irrefl, Hlt.
  - split; [intros _; left; exact Hlt|discriminate].
  - split; [intros H; exfalso; apply H; reflexivity|].
    intros [Hlt|[Heq _]]; exfalso.
    + eapply Qlt_irrefl, Qlt_trans; eassumption.
    + rewrite Heq in Hgt. eapply Qlt_irrefl, Hgt.
Qed.

Lemma compareCandidates_consistent env :
  consistentComparator (localeCompare env) ->
  consistentComparator (compareCandidates env).
Proof.
  intros [Hflip Htrans]. split.
  - intros a b. unfold compareCandidates.
    rewrite <- (Qcompare_antisym (score b) (score a)).
    destruct (score b ?= score a)%Q; simpl; [apply Hflip|reflexivity|reflexivity].
  - intros a b c. rewrite !compareCandidates_ranked. unfold rankedBefore.
    intros [Hab|[Hab Hn1]] [Hbc|[Hbc Hn2]].
    + left. eapply Qlt_trans; eassumption.
    + left. rewrite <- Hbc. exact Hab.
    + left. rewrite Hab. exact Hbc.
    + right. split; [rewrite Hab; exact Hbc|]. eapply Htrans; eassumption.
Qed.

Lemma codeUnitOrder_consistent : consistentComparator Sample.codeUnitOrder.
Proof.
  unfold Sample.codeUnitOrder. split.
  - apply String.compare_antisym.
  - intros a b c Hab Hbc.
    assert (Hle : forall x y, (x ?= y)%string <> Gt <-> String.le x y).
    { intros x y. unfold String.le, String.leb.
      destruct (x ?= y)%string; simpl; intuition congruence. }
    apply Hle. transitivity b; apply Hle; assumption.
Qed.

(** ** Candidate search: the de-duplication loop *)

Lemma uniqueLoop_sublist lim items : forall seen pushed c,
  In c (uniqueLoop lim seen pushed items) ->
  (entity_id (entity c) ∉ seen) /\ firstWithItsId items c.
Proof.
  unfold firstWithItsId.
  induction items as [|item rest IH]; intros seen pushed c Hc; [contradiction|].
  cbn [uniqueLoop] in Hc.
  destruct (bool_decide (entity_id (entity item) ∈ seen)) eqn:Hseen.
  - apply bool_decide_eq_true in Hseen.
    destruct (IH _ _ _ Hc) as (Hnot & before & after & Hrest & Hfirst).
    split; [exact Hnot|]. exists (item :: before), after.
    split; [rewrite Hrest; reflexivity|].
    simpl. intros [Heq|Hin]; [|exact (Hfirst Hin)].
    apply Hnot. rewrite <- Heq. exact Hseen.
  - apply bool_decide_eq_false in Hseen.
    destruct Hc as [<-|Hc].
    + split; [exact Hseen|]. exists [], rest. split; [reflexivity|]. simpl. tauto.
    + destruct (lim <=? S pushed)%nat; [contradiction|].
      destruct (IH _ _ _ Hc) as (Hnot & before & after & Hrest & Hfirst).
      split; [intros Hin; apply Hnot, elem_of_union; right; exact Hin|].
      exists (item :: before), after.
      split; [rewrite Hrest; reflexivity|].
      simpl. intros [Heq|Hin]; [|exact (Hfirst Hin)].
      apply Hnot. rewrite <- Heq. apply elem_of_union. left.
      apply elem_of_singleton. reflexivity.
Qed.

Lemma uniqueLoop_In lim items seen pushed c :
  In c (uniqueLoop lim seen pushed items) -> In c items.
Proof.
  intros H. apply uniqueLoop_sublist in H as (_ & before & after & -> & _).
  apply in_or_app. right. left. reflexivity.
Qed.

Lemma uniqueLoop_NoDup lim items : forall seen pushed,
  List.NoDup (candidateIds (uniqueLoop lim seen pushed items)).
Proof.
  induction items as [|item rest IH]; intros seen pushed; cbn [uniqueLoop];
    [constructor|].
  destruct (bool_decide (entity_id (entity item) ∈ seen)); [apply IH|].
  simpl. constructor.
  - destruct (lim <=? S pushed)%nat; [simpl; tauto|].
    intros Hin. apply in_map_iff in Hin as (c & Hid & Hc).
    apply uniqueLoop_sublist in Hc as (Hnot & _). apply Hnot. rewrite Hid.
    apply elem_of_union. left. apply elem_of_singleton. reflexivity.
  - destruct (lim <=? S pushed)%nat; [constructor|apply IH].
Qed.

Lemma uniqueLoop_length lim items : forall seen pushed,
  pushed < lim -> length (uniqueLoop lim seen pushed items) <= lim - pushed.
Proof.
  induction items as [|item rest IH]; intros seen pushed Hlt; cbn [uniqueLoop];
    [simpl; lia|].
  destruct (bool_decide (entity_id (entity item) ∈ seen)); [apply IH, Hlt|].
  simpl. destruct (Nat.leb_spec lim (S pushed)); [simpl; lia|].
  specialize (IH ({[entity_id (entity item)]} ∪ seen) (S pushed) ltac:(lia)). lia.
Qed.

Lemma uniqueLoop_sorted (R : Candidate -> Candidate -> Prop) lim items :
  StronglySorted R items -> forall seen pushed,
  StronglySorted R (uniqueLoop lim seen pushed items).
Proof.
  induction 1 as [|item rest Hsorted IH Hall]; intros seen pushed; cbn [uniqueLoop];
    [constructor|].
  destruct (bool_decide (entity_id (entity item) ∈ seen)); [apply IH|].
  constructor.
  - destruct (lim <=? S pushed)%nat; [constructor|apply IH].
  - destruct (lim <=? S pushed)%nat; [constructor|].
    apply List.Forall_forall. intros c Hc. apply uniqueLoop_In in Hc.
    revert c Hc. apply List.Forall_forall. exact Hall.
Qed.

(** The loop pushes the head of a non-empty list whatever the limit is. *)
Lemma uniqueLoop_nil lim items : uniqueLoop lim ∅ 0 items = [] -> items = [].
Proof.
  destruct items as [|item rest]; [reflexivity|]. cbn [uniqueLoop].
  rewrite bool_decide_eq_false_2 by apply not_elem_of_empty. discriminate.
Qed.

(** ** Candidate search: the ranked list and the fallback *)

Lemma isPositive_lt x : isPositive x = true <-> (0 < x)%Q.
Proof.
  unfold isPositive. rewrite negb_true_iff, <- not_true_iff_false, Qle_bool_iff.
  split; [apply Qnot_le_lt|apply Qlt_not_le].
Qed.

Lemma scoredCandidates_In env tokens preferred c :
  In c (scoredCandidates env tokens preferred) ->
  In (entity c) (searchIndex (haContext env)) /\
  score c = scoreEntity (entity c) tokens preferred (tokenIdf (haContext env)) /\
  (0 < score c)%Q.
Proof.
  unfold scoredCandidates. rewrite sort_In, filter_In, in_map_iff.
  intros [(e & <- & He) Hpos]. simpl in *.
  split; [exact He|]. split; [reflexivity|]. apply isPositive_lt, Hpos.
Qed.

Lemma firstn_In {A} (x : A) n : forall l, In x (firstn n l) -> In x l.
Proof.
  induction n as [|n IH]; intros [|y l]; simpl; try tauto.
  intros [->|H]; [left; reflexivity|right; apply IH, H].
Qed.

Lemma fallbackCandidates_In env token lim c :
  In c (fallbackCandidates env token lim) ->
  In (entity c) (searchIndex (haContext env)) /\
  Js.includes (entity_id (entity c)) token = true /\
  score c = (1 # 2)%Q.
Proof.
  unfold fallbackCandidates, Js.slice0. rewrite in_map_iff.
  intros (e & <- & He). apply firstn_In in He. apply filter_In in He as [He Hinc].
  simpl. auto.
Qed.

Lemma queryTokens_empty_text : queryTokens "" = [].
Proof. reflexivity. Qed.

(** The cases of [findEntityCandidates]. *)
Lemma findEntityCandidates_cases env text lim preferred :
  let tokens := queryTokens text in
  let scored := scoredCandidates env tokens preferred in
  let result := findEntityCandidates env text lim preferred in
  result = [] \/
  (scored <> [] /\ result = uniqueLoop lim ∅ 0 scored) \/
  (exists token, tokens = [token] /\ scored = [] /\
                 result = fallbackCandidates env token lim).
Proof.
  cbv zeta. unfold findEntityCandidates.
  destruct (Js.isEmpty text || (length (searchIndex (haContext env)) =? 0)%nat);
    [left; reflexivity|].
  destruct (queryTokens text) as [|token0 more] eqn:Htokens; [left; reflexivity|].
  destruct (uniqueLoop lim ∅ 0 (scoredCandidates env (token0 :: more) preferred))
    as [|c unique] eqn:Hunique.
  - apply uniqueLoop_nil in Hunique.
    destruct more; [|left; reflexivity].
    right. right. exists token0. auto.
  - right. left. split; [|reflexivity].
    intros Hnil. rewrite Hnil in Hunique. discriminate.
Qed.


Lemma findEntityCandidates_length env text lim preferred :
  1 <= lim -> length (findEntityCandidates env text lim preferred) <= lim.
Proof.
  intros Hlim.
  destruct (findEntityCandidates_cases env text lim preferred)
    as [->|[[_ ->]|(token & _ & _ & ->)]].
  - simpl. lia.
  - pose proof (uniqueLoop_length lim (scoredCandidates env (queryTokens text) preferred)
                  ∅ 0 ltac:(lia)). lia.
  - unfold fallbackCandidates, Js.slice0. rewrite length_map, length_firstn. lia.
Qed.

(** C4 (as amended). [findEntityCandidates] returns the empty list when no
    token survives the stop words. Every returned candidate has a strictly
    positive score, and for a limit of at least one the list is no longer
    than the limit. Unless the single-token fallback applies (nothing
    scored, exactly one token), the candidates are index entries with their
    engine score, ranked by descending score with ties by ascending name, no
    two with the same entity id, each one the first of the sorted scored
    list with its id. The collation is assumed to be a consistent
    comparator. *)
Theorem findEntityCandidates_ranked env text lim preferred :
  consistentComparator (localeCompare env) ->
  let tokens := queryTokens text in
  let scored := scoredCandidates env tokens preferred in
  let result := findEntityCandidates env text lim preferred in
  (tokens = [] -> result = []) /\
  Forall (fun c => (0 < score c)%Q) result /\
  (1 <= lim -> length result <= lim) /\
  (~ (scored = [] /\ length tokens = 1) ->
   Forall (fun c =>
             In (entity c) (searchIndex (haContext env)) /\
             score c = scoreEntity (entity c) tokens preferred (tokenIdf (haContext env)))
     result /\
   StronglySorted (rankedBefore env) result /\
   List.NoDup (candidateIds result) /\
   Forall (firstWithItsId scored) result).
Proof.
  intros Hcollation. cbv zeta.
  pose proof (findEntityCandidates_cases env text lim preferred) as Hcases.
  cbv zeta in Hcases.
  split; [|split; [|split]].
  - unfold findEntityCandidates. intros ->.
    destruct (_ || _); reflexivity.
  - apply List.Forall_forall. intros c Hc.
    destruct Hcases as [Hnil|[[_ Hmain]|(token & _ & _ & Hfallback)]].
    + rewrite Hnil in Hc. contradiction.
    + rewrite Hmain in Hc. apply uniqueLoop_In, scoredCandidates_In in Hc. apply Hc.
    + rewrite Hfallback in Hc. apply fallbackCandidates_In in Hc as (_ & _ & ->).
      reflexivity.
  - apply findEntityCandidates_length.
  - intros Hnofallback.
    destruct Hcases as [->|[[_ ->]|(token & Htokens & Hscored & _)]].
    + repeat split; constructor.
    + split; [|split; [|split]].
      * apply List.Forall_forall. intros c Hc.
        apply uniqueLoop_In, scoredCandidates_In in Hc. split; apply Hc.
      * apply uniqueLoop_sorted.
        eapply StronglySorted_weaken;
          [|apply sort_sorted, compareCandidates_consistent, Hcollation].
        intros a b. apply compareCandidates_ranked.
      * apply uniqueLoop_NoDup.
      * apply List.Forall_forall. intros c Hc. apply uniqueLoop_sublist in Hc. apply Hc.
    + exfalso. apply Hnofallback. split; [exact Hscored|].
      rewrite Htokens. reflexivity.
Qed.

Lemma findEntityCandidates_ranked_witness :
  candidateIds (findEntityCandidates Sample.home "the whiskey lamp" 2 ["light"])
    = ["light.whiskey"; "sensor.whiskey"] /\
  StronglySorted (rankedBefore Sample.home)
    (findEntityCandidates Sample.home "the whiskey lamp" 2 ["light"]).
Proof.
  split; [vm_compute; reflexivity|].
  apply (findEntityCandidates_ranked Sample.home "the whiskey lamp" 2 ["light"]
           codeUnitOrder_consistent).
  vm_compute. intros [H _]. discriminate H.
Defined.

(** C4 as stated fails in two places. The fallback list keeps the order of
    the index: for "xyz" it has "Zed" before "Alpha" at equal scores. And a
    limit of zero still lets one candidate through. *)
Lemma findEntityCandidates_unranked_fallback :
  queryTokens "xyz" <> [] /\
  map (fun c => name (entity c)) (findEntityCandidates Sample.sensors "xyz" 5 [])
    = ["Zed"; "Alpha"] /\
  ~ StronglySorted (rankedBefore Sample.sensors)
      (findEntityCandidates Sample.sensors "xyz" 5 []) /\
  length (findEntityCandidates Sample.home "whiskey" 0 []) = 1.
Proof.
  split; [vm_compute; discriminate|].
  split; [vm_compute; reflexivity|].
  split; [|vm_compute; reflexivity].
  intros Hsorted.
  assert (Hlist : exists a b,
            findEntityCandidates Sample.sensors "xyz" 5 [] = [a; b] /\
            score a = (1 # 2)%Q /\ score b = (1 # 2)%Q /\
            name (entity a) = "Zed" /\ name (entity b) = "Alpha").
  { eexists _, _. split; [vm_compute; reflexivity|]. repeat split. }
  destruct Hlist as (a & b & Hlist & Ha & Hb & Hna & Hnb).
  rewrite Hlist in Hsorted.
  apply StronglySorted_inv in Hsorted as [_ Hall].
  apply Forall_inv in Hall. unfold rankedBefore in Hall.
  rewrite Ha, Hb, Hna, Hnb in Hall.
  destruct Hall as [Hlt|[_ Hname]].
  - revert Hlt. apply Qlt_irrefl.
  - apply Hname. vm_compute. reflexivity.
Qed.

(** C9. When exactly one token survives tokenization and the stop words and
    nothing is scored, [findEntityCandidates] returns the index entries
    whose entity id contains the token, in index order, cut to the first
    [lim] of them, each with the score one half. *)
Theorem findEntityCandidates_fallback env text lim preferred token :
  queryTokens text = [token] ->
  scoredCandidates env [token] preferred = [] ->
  findEntityCandidates env text lim preferred
  = map (fun e => {| entity := e; score := (1 # 2)%Q |})
      (firstn lim
         (List.filter (fun e => Js.includes (entity_id e) token)
            (searchIndex (haContext env)))) /\
  Forall (fun c => Js.includes (entity_id (entity c)) token = true /\
                   score c = (1 # 2)%Q)
    (findEntityCandidates env text lim preferred) /\
  length (findEntityCandidates env text lim preferred) <= lim.
Proof.
  intros Htokens Hscored.
  assert (Heq : findEntityCandidates env text lim preferred
                = fallbackCandidates env token lim).
  { unfold findEntityCandidates.
    destruct text as [|c text]; [rewrite queryTokens_empty_text in Htokens; discriminate|].
    cbn [Js.isEmpty orb].
    destruct (searchIndex (haContext env)) as [|e index] eqn:Hindex.
    - unfold fallbackCandidates. rewrite Hindex. simpl.
      unfold Js.slice0. rewrite firstn_nil. reflexivity.
    - cbn [length Nat.eqb]. rewrite Htokens, Hscored. reflexivity. }
  rewrite Heq. split; [reflexivity|]. split.
  - apply List.Forall_forall. intros c Hc.
    apply fallbackCandidates_In in Hc as (_ & ? & ?). auto.
  - unfold fallbackCandidates, Js.slice0. rewrite length_map, length_firstn. lia.
Qed.

Lemma findEntityCandidates_fallback_witness :
  map (fun c => (entity_id (entity c), score c))
    (findEntityCandidates Sample.sensors "the xyz" 1 ["light"])
  = [("sensor.abcxyz", (1 # 2)%Q)].
Proof.
  rewrite (proj1 (findEntityCandidates_fallback Sample.sensors "the xyz" 1 ["light"] "xyz"
                    ltac:(vm_compute; reflexivity) ltac:(vm_compute; reflexivity))).
  vm_compute. reflexivity.
Defined.

(** ** Brightness commands: group mode *)

Lemma has_In l x : Js.has l x = true <-> In x l.
Proof.
  unfold Js.has. rewrite bool_decide_eq_true. apply list_elem_of_In.
Qed.






(** ** The IDF table *)

Lemma distinct_In l : forall seen x,
  In x (distinct seen l) <-> In x l /\ ~ In x seen.
Proof.
  induction l as [|y l IH]; intros seen x; cbn [distinct]; [simpl; tauto|].
  destruct (Js.has seen y) eqn:Hseen.
  - apply has_In in Hseen. rewrite IH. simpl. split.
    + intros [? ?]. auto.
    + intros [[<-|Hin] Hnot]; [contradiction|auto].
  - assert (Hnot : ~ In y seen) by (rewrite <- has_In; congruence).
    cbn [In]. rewrite IH. simpl. split.
    + intros [<-|[Hin Hn]]; [auto|]. split; [right; exact Hin|tauto].
    + intros [[<-|Hin] Hn]; [left; reflexivity|].
      destruct (decide (y = x)) as [Heq|Hne]; [left; exact Heq|].
      right. split; [exact Hin|]. intros [Heq|Hs]; [exact (Hne Heq)|exact (Hn Hs)].
Qed.

Lemma distinct_NoDup l : forall seen, List.NoDup (distinct seen l).
Proof.
  induction l as [|y l IH]; intros seen; cbn [distinct]; [constructor|].
  destruct (Js.has seen y); [apply IH|].
  constructor; [|apply IH].
  rewrite distinct_In. intros [_ Hnot]. apply Hnot. left. reflexivity.
Qed.

(** Counting each token of a duplicate-free list once. *)
Lemma countTokens_lookup tokens : forall counts t,
  List.NoDup tokens ->
  foldl countToken counts tokens !! t
  = if Js.has tokens t then Some (S (default O (counts !! t))) else counts !! t.
Proof.
  induction tokens as [|x tokens IH]; intros counts t Hnodup; [reflexivity|].
  apply List.NoDup_cons_iff in Hnodup as [Hx Hnodup].
  cbn [foldl]. rewrite (IH _ _ Hnodup). unfold countToken.
  destruct (decide (x = t)) as [->|Hne].
  - rewrite lookup_insert_eq.
    assert (Js.has tokens t = false) as ->
      by (apply not_true_iff_false; rewrite has_In; exact Hx).
    assert (Js.has (t :: tokens) t = true) as -> by (apply has_In; left; reflexivity).
    reflexivity.
  - rewrite lookup_insert_ne by exact Hne.
    destruct (Js.has tokens t) eqn:Hin.
    + apply has_In in Hin.
      assert (Js.has (x :: tokens) t = true) as -> by (apply has_In; right; exact Hin).
      reflexivity.
    + assert (Js.has (x :: tokens) t = false) as ->; [|reflexivity].
      apply not_true_iff_false. rewrite has_In. intros [Heq|Hin'].
      * exact (Hne Heq).
      * apply has_In in Hin'. congruence.
Qed.

Lemma tokenEntityCount_from index : forall counts t,
  foldl
    (fun counts e => foldl countToken counts (distinct [] (tokenizeForMatch (normalized e))))
    counts index !! t
  = advanced (counts !! t) (df index t).
Proof.
  induction index as [|e index IH]; intros counts t; [reflexivity|].
  cbn [foldl]. rewrite IH, (countTokens_lookup _ _ _ (distinct_NoDup _ _)).
  unfold df. cbn [List.filter].
  destruct (Js.has (tokenizeForMatch (normalized e)) t) eqn:Hhas.
  - assert (Js.has (distinct [] (tokenizeForMatch (normalized e))) t = true) as ->
      by (apply has_In, distinct_In; split; [apply has_In, Hhas|simpl; tauto]).
    cbn [length]. unfold advanced at 2.
    destruct (length (List.filter _ index)) as [|k]; simpl; f_equal; lia.
  - assert (Js.has (distinct [] (tokenizeForMatch (normalized e))) t = false) as ->;
      [|reflexivity].
    apply not_true_iff_false. rewrite has_In, distinct_In, <- has_In, Hhas.
    intros [? _]. discriminate.
Qed.

(** The counts of the first loop are the document frequencies. *)
Lemma tokenEntityCount_df index t :
  tokenEntityCount index !! t
  = if (df index t =? 0)%nat then None else Some (df index t).
Proof.
  unfold tokenEntityCount. rewrite tokenEntityCount_from, lookup_empty.
  destruct (df index t); reflexivity.
Qed.

Lemma df_le_length index t : df index t <= length index.
Proof. unfold df. apply filter_length_le. Qed.

Lemma clampIdf_bounds raw : (1 # 2 <= clampIdf raw <= 10)%Q.
Proof.
  unfold clampIdf. split; [apply Q.le_max_l|].
  apply Q.max_lub; [discriminate|apply Q.le_min_r].
Qed.

Lemma clampIdf_monotone x y : (x <= y)%Q -> (clampIdf x <= clampIdf y)%Q.
Proof.
  intros H. unfold clampIdf. apply Q.max_le_compat_l, Q.min_le_compat_r, H.
Qed.

Lemma natQ_pos n : 0 < n -> (0 < natQ n)%Q.
Proof.
  intros H. unfold natQ. change 0%Q with (inject_Z 0). rewrite <- Zlt_Qlt. lia.
Qed.

(** More entities with the token, smaller quotient. *)
Lemma quotient_antitone total a b :
  0 < total -> 0 < a -> a < b ->
  (0 < natQ total / natQ b)%Q /\ (natQ total / natQ b <= natQ total / natQ a)%Q.
Proof.
  intros Htotal Ha Hab.
  pose proof (natQ_pos total Htotal) as Ht.
  pose proof (natQ_pos a Ha) as Hqa.
  pose proof (natQ_pos b ltac:(lia)) as Hqb.
  split.
  - apply Qlt_shift_div_l; [exact Hqb|]. rewrite Qmult_0_l. exact Ht.
  - apply Qle_shift_div_l; [exact Hqa|].
    assert (Hswap : (natQ total / natQ b * natQ a == natQ total * natQ a / natQ b)%Q)
      by (field; apply Qnot_eq_sym, Qlt_not_eq, Hqb).
    rewrite Hswap. apply Qle_shift_div_r; [exact Hqb|].
    unfold natQ. rewrite <- !inject_Z_mult, <- Zle_Qle. nia.
Qed.

Lemma clampIdf_specClamp raw : (clampIdf raw == specClamp raw (1 # 2) 10)%Q.
Proof.
  unfold clampIdf, specClamp.
  destruct (Qle_bool raw (1 # 2)) eqn:Hlow.
  - apply Qle_bool_iff in Hlow.
    rewrite (Q.min_l raw 10) by (eapply Qle_trans; [exact Hlow|discriminate]).
    apply Q.max_l. exact Hlow.
  - assert (Hlt : (1 # 2 < raw)%Q).
    { apply Qnot_le_lt. intros Hle. apply Qle_bool_iff in Hle. congruence. }
    destruct (Qle_bool 10 raw) eqn:Hhigh.
    + apply Qle_bool_iff in Hhigh. rewrite (Q.min_r raw 10) by exact Hhigh.
      apply Q.max_r. discriminate.
    + assert (Hlt2 : (raw < 10)%Q).
      { apply Qnot_le_lt. intros Hle. apply Qle_bool_iff in Hle. congruence. }
      rewrite (Q.min_l raw 10) by (apply Qlt_le_weak, Hlt2).
      apply Q.max_r. apply Qlt_le_weak, Hlt.
Qed.

(** C5. In the table that [buildTokenIdf] builds for a search index, a token
    is present exactly when some entry has it in its normalized text, and
    its weight is [clamp(log2(N / df), 0.5, 10)]: 0.5 when [log2(N / df)] is
    at most 0.5, 10 when it is at least 10, and [log2(N / df)] itself in
    between, where [df] counts the entries that have the token and [N] is
    the number of entries. Every weight lies between 0.5 and 10.
    [Math.log2] being monotone, of two tokens of the table the one with the
    smaller [df] has the larger or equal weight. *)
Theorem buildTokenIdf_weights (log2 : Q -> Q) index :
  (forall x y, (0 < x)%Q -> (x <= y)%Q -> (log2 x <= log2 y)%Q) ->
  (forall t,
     if (df index t =? 0)%nat then buildTokenIdf log2 index !! t = None
     else exists w,
            buildTokenIdf log2 index !! t = Some w /\
            (w == specClamp (log2 (natQ (length index) / natQ (df index t))) (1 # 2) 10)%Q /\
            ((log2 (natQ (length index) / natQ (df index t)) <= 1 # 2)%Q ->
             (w == 1 # 2)%Q) /\
            ((1 # 2 <= log2 (natQ (length index) / natQ (df index t)) <= 10)%Q ->
             (w == log2 (natQ (length index) / natQ (df index t)))%Q) /\
            ((10 <= log2 (natQ (length index) / natQ (df index t)))%Q ->
             (w == 10)%Q)) /\
  (forall t w, buildTokenIdf log2 index !! t = Some w -> (1 # 2 <= w <= 10)%Q) /\
  (forall a b wa wb,
     buildTokenIdf log2 index !! a = Some wa ->
     buildTokenIdf log2 index !! b = Some wb ->
     df index a < df index b ->
     (wb <= wa)%Q).
Proof.
  intros Hlog2.
  assert (Hlookup : forall t,
     buildTokenIdf log2 index !! t
     = if (df index t =? 0)%nat then None
       else Some (clampIdf (log2 (natQ (length index) / natQ (df index t))%Q))).
  { intros t. unfold buildTokenIdf. rewrite lookup_fmap, tokenEntityCount_df.
    destruct (Nat.eqb_spec (df index t) 0) as [|Hdf]; [reflexivity|].
    pose proof (df_le_length index t).
    unfold totalEntities. destruct (length index); [lia|reflexivity]. }
  split; [|split].
  - intros t. rewrite Hlookup. destruct (df index t =? 0)%nat; [reflexivity|].
    set (raw := log2 (natQ (length index) / natQ (df index t))%Q).
    exists (clampIdf raw). split; [reflexivity|].
    pose proof (clampIdf_specClamp raw) as Hspec.
    split; [exact Hspec|]. rewrite Hspec. unfold specClamp.
    split; [|split].
    + intros Hlow. apply Qle_bool_iff in Hlow. rewrite Hlow. reflexivity.
    + intros [Hlow Hhigh].
      destruct (Qle_bool raw (1 # 2)) eqn:H1.
      * apply Qle_bool_iff in H1. apply Qle_antisym; assumption.
      * destruct (Qle_bool 10 raw) eqn:H2; [|reflexivity].
        apply Qle_bool_iff in H2. apply Qle_antisym; assumption.
    + intros Hhigh.
      destruct (Qle_bool raw (1 # 2)) eqn:H1.
      * apply Qle_bool_iff in H1. exfalso.
        assert (H : (10 <= 1 # 2)%Q) by (eapply Qle_trans; eassumption).
        revert H. apply Qlt_not_le. reflexivity.
      * apply Qle_bool_iff in Hhigh. rewrite Hhigh. reflexivity.
  - intros t w. rewrite Hlookup. destruct (df index t =? 0)%nat; [discriminate|].
    intros [= <-]. apply clampIdf_bounds.
  - intros a b wa wb. rewrite !Hlookup.
    destruct (Nat.eqb_spec (df index a) 0) as [|Ha]; [discriminate|].
    destruct (Nat.eqb_spec (df index b) 0) as [|Hb]; [discriminate|].
    intros [= <-] [= <-] Hlt.
    pose proof (df_le_length index b).
    destruct (quotient_antitone (length index) (df index a) (df index b)
                ltac:(lia) ltac:(lia) Hlt) as [Hpos Hle].
    apply clampIdf_monotone, Hlog2; assumption.
Qed.

Lemma floorLog2_monotone x y :
  (0 < x)%Q -> (x <= y)%Q -> (Sample.floorLog2 x <= Sample.floorLog2 y)%Q.
Proof.
  intros _ Hle. unfold Sample.floorLog2. rewrite <- Zle_Qle.
  apply Z.log2_le_mono, Qfloor_resp_le, Hle.
Qed.

(** In the sample home, of four entries, "whiskey" is in two and "light" in
    three: with the integer part of the logarithm, "whiskey" weighs
    [log2(4 / 2) = 1] and "light", whose [log2(4 / 3)] is below 0.5, weighs
    0.5. *)
Lemma buildTokenIdf_weights_witness :
  length (searchIndex (haContext Sample.home)) = 4 /\
  df (searchIndex (haContext Sample.home)) "whiskey" = 2 /\
  df (searchIndex (haContext Sample.home)) "light" = 3 /\
  (exists wa, tokenIdf (haContext Sample.home) !! "whiskey" = Some wa /\ (wa == 1)%Q) /\
  (exists wb, tokenIdf (haContext Sample.home) !! "light" = Some wb /\ (wb == 1 # 2)%Q) /\
  tokenIdf (haContext Sample.home) !! "porch" = None.
Proof.
  split; [vm_compute; reflexivity|]. split; [vm_compute; reflexivity|].
  split; [vm_compute; reflexivity|].
  destruct (buildTokenIdf_weights Sample.floorLog2 (searchIndex (haContext Sample.home))
              floorLog2_monotone) as (Hweight & _ & _).
  split; [|split].
  - pose proof (Hweight "whiskey") as H.
    change (df (searchIndex (haContext Sample.home)) "whiskey" =? 0)%nat with false in H.
    destruct H as (wa & Hwa & _ & _ & Hmid & _). exists wa. split; [exact Hwa|].
    rewrite Hmid; [vm_compute; reflexivity|]. split; vm_compute; discriminate.
  - pose proof (Hweight "light") as H.
    change (df (searchIndex (haContext Sample.home)) "light" =? 0)%nat with false in H.
    destruct H as (wb & Hwb & _ & Hlow & _). exists wb. split; [exact Hwb|].
    apply Hlow. vm_compute. discriminate.
  - pose proof (Hweight "porch") as H.
    change (df (searchIndex (haContext Sample.home)) "porch" =? 0)%nat with true in H.
    exact H.
Defined.

(** ** Brightness commands: what group mode gathers *)


(** *** The candidates of group mode *)


















(** The search of group mode stops at 50 candidates: of the 51 dimmable
    lights of the hall, "set all lights to 20%" turns on 50. *)
Lemma detectBrightnessCommand_group_cap :
  length (searchIndex (haContext Sample.hall)) = 51 /\
  Forall (fun e => domain e = "light" /\ supportsBrightness e = true)
    (searchIndex (haContext Sample.hall)) /\
  groupFilterTokens "all lights" = [] /\
  length (scoredCandidates Sample.hall (queryTokens (groupQuery "all lights")) ["light"])
  = 51 /\
  exists intent,
    detectBrightnessCommand Sample.hall "set all lights to 20%" "user" = Some intent /\
    length (brightnessActions intent) = 50.
Proof.
  split; [vm_compute; reflexivity|].
  split; [apply List.Forall_forall; intros e He; vm_compute in He;
          repeat (destruct He as [<-|He]; [split; reflexivity|]); destruct He|].
  split; [vm_compute; reflexivity|].
  split; [vm_compute; reflexivity|].
  eexists. split; [vm_compute; reflexivity|]. vm_compute. reflexivity.
Qed.

(** The entity ids of the index have to be distinct: when a light without
    brightness named "Attic" and a dimmable light named "Bulb" share an id,
    the first ranks before the second at equal score, the candidate search
    drops the dimmable light as a duplicate, and "set all lights to 20%" is
    not detected. *)
Lemma detectBrightnessCommand_group_shared_id :
  detectBrightnessCommand
    (Sample.envOf
       [ Sample.light "light.attic" "Bulb" None true;
         Sample.light "light.attic" "Attic" None false ] [])
    "set all lights to 20%" "user" = None.
Proof. vm_compute. reflexivity. Qed.

(** ** The completeness signal *)

Lemma scoreToken_count nameTokens idTokens areaTokens idf tokens : forall st,
  nameMatchCount (fold_left (scoreToken nameTokens idTokens areaTokens idf) tokens st)
  = nameMatchCount st + length (List.filter (Js.has nameTokens) tokens).
Proof.
  induction tokens as [|token tokens IH]; intros st; cbn [fold_left List.filter];
    [simpl; lia|].
  rewrite IH. unfold scoreToken.
  destruct (Js.has nameTokens token); simpl; lia.
Qed.

(** What signal 8 counts: the query tokens, repeated ones included, that
    occur among the name tokens. *)
Lemma scoreSignals_nameMatchCount e tokens preferred idf :
  snd (scoreSignals1to7 e tokens preferred idf)
  = length (List.filter (Js.has (tokenizeForMatch (Js.toLowerCase (name e)))) tokens).
Proof.
  unfold scoreSignals1to7. cbn [snd]. rewrite scoreToken_count. reflexivity.
Qed.

(** C6, on the code. For the entity named "Kitchen" and the query
    "kitchen kitchen", whose two tokens both match the single name token,
    signal 8 adds 10 to the score: the count of matching query tokens over
    the number of name tokens, times five. The ratio of distinct name tokens
    matched gives 5, and the comment of [scoreEntity] promises "up to +5". *)
Theorem scoreEntity_completeness_repeated_token :
  let e := Sample.light "light.kitchen" "Kitchen" None true in
  let tokens := queryTokens "kitchen kitchen" in
  tokens = ["kitchen"; "kitchen"] /\
  (completenessContribution e tokens [] ∅ == 10)%Q /\
  (specCompleteness e tokens == 5)%Q /\
  (scoreEntity e tokens [] ∅ == 20)%Q.
Proof. repeat split; vm_compute; reflexivity. Qed.
